(** * cli-sudoku: the board model and interaction logic of [sudoku.py]

    A shallow embedding of the [Sudoku] class of [src/sudoku.py]: the
    coordinate mapper ([is_safe_pos], [is_on_grid], [yx_to_ij]), the cursor
    navigation ([try_move]), the two mutations of the player board
    ([try_place], [try_del]) and the completion check ([is_completed]).

    Python integers are [Z]; [//] and [%] by a positive constant are
    [Z.div] and [Z.modulo] (both round towards minus infinity, as Python
    does).  A board is a list of rows, [list (list Z)].  Exceptions are an
    error monad [result].  The value [None] that [yx_to_ij] returns for a
    position that is not playable is modelled by [option Z], and using it
    as a subscript raises [TypeError], as in Python.

    The curses window is modelled by the position of its cursor only: the
    characters drawn by [addch] are not part of the state.  The main loop
    [play] runs on the list of the keys that arrive, and [init_board], which
    only draws, takes and returns the characters on the screen as a map. *)

From Stdlib Require Import ZArith List String Ascii Lia Bool Permutation.
From stdpp Require Import base option list list_numbers gmap pretty.

Local Open Scope Z_scope.

(** ** Exceptions *)

Inductive exn : Type :=
  | TypeError
  | IndexError
  | ValueError
  | AssertionError.

Inductive result (A : Type) : Type :=
  | Ok (a : A)
  | Raise (e : exn).

Arguments Ok {A} a.
Arguments Raise {A} e.

#[global] Instance result_ret : MRet result := fun A a => Ok a.
#[global] Instance result_bind : MBind result := fun A B f m =>
  match m with
  | Ok a => f a
  | Raise e => Raise e
  end.
#[global] Instance result_fmap : FMap result := fun A B f m =>
  match m with
  | Ok a => Ok (f a)
  | Raise e => Raise e
  end.

(** ** Python lists and ranges *)

(** [range(start, stop)] and [range(start, stop, step)] for a positive
    [step]. *)
Definition range (start stop : Z) : list Z := seqZ start (stop - start).

Definition range_step (start stop step : Z) : list Z :=
  (fun k => start + k * step) <$> seqZ 0 ((stop - start + step - 1) / step).

(** [l[i]] for an integer [i]: a negative index counts from the end, an
    index out of range raises [IndexError]. *)
Definition index {A : Type} (l : list A) (i : Z) : result A :=
  let n := Z.of_nat (length l) in
  let k := if i <? 0 then i + n else i in
  if (0 <=? k) && (k <? n) then
    match l !! Z.to_nat k with
    | Some a => Ok a
    | None => Raise IndexError
    end
  else Raise IndexError.

(** [l[i]] where [i] may be [None]. *)
Definition subscript {A : Type} (l : list A) (i : option Z) : result A :=
  match i with
  | Some k => index l k
  | None => Raise TypeError
  end.

(** [l[i] = v]. *)
Definition setitem {A : Type} (l : list A) (i : option Z) (v : A)
  : result (list A) :=
  match i with
  | Some i =>
      let n := Z.of_nat (length l) in
      let k := if i <? 0 then i + n else i in
      if (0 <=? k) && (k <? n) then Ok (<[Z.to_nat k := v]> l)
      else Raise IndexError
  | None => Raise TypeError
  end.

(** [b[i][j] = v] on a list of rows.  The rows of a board are distinct
    list objects (they come from a JSON document, and [deepcopy] keeps them
    distinct), so that the assignment changes row [i] only. *)
Definition store_cell (b : list (list Z)) (i j : option Z) (v : Z)
  : result (list (list Z)) :=
  row ← subscript b i;
  row' ← setitem row j v;
  setitem b i row'.

(** An operand of integer arithmetic: [None // 3] raises [TypeError]. *)
Definition as_int (i : option Z) : result Z :=
  match i with
  | Some k => Ok k
  | None => Raise TypeError
  end.

(** ** [int(num)] on ASCII strings

    Base 10: surrounding white space is dropped, a sign may come first, and
    the digits may be grouped by single underscores.  Anything else raises
    [ValueError]. *)

Definition is_space (c : ascii) : bool :=
  let n := nat_of_ascii c in
  ((9 <=? n)%nat && (n <=? 13)%nat) || (n =? 32)%nat.

Definition digit_val (c : ascii) : option Z :=
  let n := nat_of_ascii c in
  if ((48 <=? n)%nat && (n <=? 57)%nat) then Some (Z.of_nat n - 48) else None.

Fixpoint lstrip (cs : list ascii) : list ascii :=
  match cs with
  | c :: cs' => if is_space c then lstrip cs' else cs
  | [] => []
  end.

Definition strip (cs : list ascii) : list ascii :=
  rev (lstrip (rev (lstrip cs))).

(** [after_us] is true at the start and right after an underscore, where a
    digit has to follow. *)
Fixpoint digits_value (acc : Z) (after_us : bool) (cs : list ascii)
  : option Z :=
  match cs with
  | [] => if after_us then None else Some acc
  | c :: cs' =>
      if Ascii.eqb c "_"%char then
        if after_us then None else digits_value acc true cs'
      else
        match digit_val c with
        | Some d => digits_value (10 * acc + d) false cs'
        | None => None
        end
  end.

Definition int (num : string) : result Z :=
  let cs := strip (list_ascii_of_string num) in
  let '(sign, body) :=
    match cs with
    | c :: cs' =>
        if Ascii.eqb c "-"%char then (-1, cs')
        else if Ascii.eqb c "+"%char then (1, cs')
        else (1, cs)
    | [] => (1, cs)
    end in
  match digits_value 0 true body with
  | Some v => Ok (sign * v)
  | None => Raise ValueError
  end.

(** ** The game state *)

Record Sudoku : Type := mkSudoku {
  height : Z;                       (* term_size.lines *)
  width : Z;                        (* term_size.columns *)
  initial_board : list (list Z);
  board : list (list Z);
  cursor : Z * Z                    (* stdscr.getyx() *)
}.

(** [stdscr.move(y, x)] *)
Definition move (s : Sudoku) (y x : Z) : Sudoku :=
  mkSudoku (height s) (width s) (initial_board s) (board s) (y, x).

(** [stdscr.addch(y, x, ch)]: the character is drawn and the cursor is left
    behind it. *)
Definition addch (s : Sudoku) (y x : Z) (ch : string) : Sudoku :=
  mkSudoku (height s) (width s) (initial_board s) (board s) (y, x + 1).

Definition set_board (s : Sudoku) (b : list (list Z)) : Sudoku :=
  mkSudoku (height s) (width s) (initial_board s) b (cursor s).

(** The state in which [play] starts: [__init__] has copied the puzzle into
    [board] and [play] has moved the cursor to (1, 1). *)
Definition start (h w : Z) (puzzle : list (list Z)) : Sudoku :=
  mkSudoku h w puzzle puzzle (1, 1).

(** ** Coordinate mapper *)

Definition is_safe_pos (s : Sudoku) (y x : Z) : bool :=
  ((0 <=? y) && (y <=? height s)) && ((0 <=? x) && (x <=? width s - 2)).

Definition is_on_grid (s : Sudoku) (y x : Z) : bool :=
  if negb (is_safe_pos s y x) then false
  else if negb ((0 <=? y) && (y <=? 12)) || negb ((0 <=? x) && (x <=? 12))
  then false
  else negb (x mod 4 =? 0) && negb (y mod 4 =? 0).

Definition yx_to_ij (s : Sudoku) (y x : Z) : option Z * option Z :=
  if negb (is_on_grid s y x) then (None, None)
  else (Some ((y - 1) - (y / 4)), Some ((x - 1) - (x / 4))).

Definition is_on_initial (s : Sudoku) (y x : Z) : result bool :=
  let '(i, j) := yx_to_ij s y x in
  row ← subscript (initial_board s) i;
  v ← subscript row j;
  Ok (negb (v =? 0)).

(** ** Cursor navigation *)

Definition try_move (s : Sudoku) (y x : Z) (dir : string) : Sudoku :=
  if is_on_grid s y x then move s y x
  else if String.eqb dir "KEY_UP" && is_on_grid s (y - 1) x
  then move s (y - 1) x
  else if String.eqb dir "KEY_DOWN" && is_on_grid s (y + 1) x
  then move s (y + 1) x
  else if String.eqb dir "KEY_LEFT" && is_on_grid s y (x - 1)
  then move s y (x - 1)
  else if String.eqb dir "KEY_RIGHT" && is_on_grid s y (x + 1)
  then move s y (x + 1)
  else s.

(** ** Placing and deleting *)

(** [this_col = [self.board[k][j] for k in range(9)]] *)
Definition this_col (b : list (list Z)) (j : option Z) : result (list Z) :=
  mapM (fun k => row ← index b k; subscript row j) (range 0 9).

(** [this_square = [self.board[k][l] for k in range(i//3*3, i//3*3+3)
                                     for l in range(j//3*3, j//3*3+3)]] *)
Definition this_square (b : list (list Z)) (i j : option Z)
  : result (list Z) :=
  i ← as_int i;
  rows ← mapM (fun k =>
            j ← as_int j;
            mapM (fun l => row ← index b k; index row l)
                 (range (j / 3 * 3) (j / 3 * 3 + 3)))
          (range (i / 3 * 3) (i / 3 * 3 + 3));
  Ok (concat rows).

Definition try_place (s : Sudoku) (y x : Z) (num : string) : result Sudoku :=
  if is_on_grid s y x then
    given ← is_on_initial s y x;
    if negb given then
      let '(i, j) := yx_to_ij s y x in
      this_row ← subscript (board s) i;
      col ← this_col (board s) j;
      square ← this_square (board s) i j;
      numint ← int num;
      if bool_decide (numint ∈ this_row) || bool_decide (numint ∈ col)
         || bool_decide (numint ∈ square)
      then Ok s
      else
        let s1 := addch s y x num in
        b' ← store_cell (board s1) i j numint;
        Ok (move (set_board s1 b') y x)
    else Ok s
  else Ok s.

Definition try_del (s : Sudoku) (y x : Z) : result Sudoku :=
  if is_on_grid s y x then
    given ← is_on_initial s y x;
    if negb given then
      let '(i, j) := yx_to_ij s y x in
      let s1 := addch s y x " " in
      b' ← store_cell (board s1) i j 0;
      Ok (move (set_board s1 b') y x)
    else Ok s
  else Ok s.

(** ** Sample data *)

Definition solved : list (list Z) :=
  [ [5;3;4;6;7;8;9;1;2];
    [6;7;2;1;9;5;3;4;8];
    [1;9;8;3;4;2;5;6;7];
    [8;5;9;7;6;1;4;2;3];
    [4;2;6;8;5;3;7;9;1];
    [7;1;3;9;2;4;8;5;6];
    [9;6;1;5;3;7;2;8;4];
    [2;8;7;4;1;9;6;3;5];
    [3;4;5;2;8;6;1;7;9] ].

Definition puzzle : list (list Z) :=
  [ [5;3;0;0;7;0;0;0;0];
    [6;0;0;1;9;5;0;0;0];
    [0;9;8;0;0;0;0;6;0];
    [8;0;0;0;6;0;0;0;3];
    [4;0;0;8;0;3;0;0;1];
    [7;0;0;0;2;0;0;0;6];
    [0;6;0;0;0;0;2;8;0];
    [0;0;0;4;1;9;0;0;5];
    [0;0;0;0;8;0;0;7;9] ].

Definition game0 : Sudoku := start 24 80 puzzle.

(** ** The completion check *)

(** A loop body either falls through to the next iteration or leaves the
    function with [return]. *)
Inductive flow (A : Type) : Type :=
  | Next
  | Return (a : A).

Arguments Next {A}.
Arguments Return {A} a.

(** [for x in xs: body], where the body may [return] or raise. *)
Fixpoint for_ {A : Type} (xs : list Z) (body : Z → result (flow A))
  : result (flow A) :=
  match xs with
  | [] => Ok Next
  | x :: xs' =>
      r ← body x;
      match r with
      | Next => for_ xs' body
      | Return a => Ok (Return a)
      end
  end.

(** [for x in xs: body], where the body updates local variables [st]. *)
Fixpoint for_acc {St : Type} (xs : list Z) (body : Z → St → result St)
  (st : St) : result St :=
  match xs with
  | [] => Ok st
  | x :: xs' => st' ← body x st; for_acc xs' body st'
  end.

(** [sum(xs)] and [len(xs)] of a Python set of integers. *)
Definition sum (xs : gset Z) : Z := set_fold Z.add 0 xs.
Definition len (xs : gset Z) : Z := Z.of_nat (size xs).

Definition is_completed (s : Sudoku) (deep_check : bool) : result bool :=
  let digits := range 1 10 in
  filled ← for_ (range 0 9) (fun i =>
    for_ (range 0 9) (fun j =>
      r ← index (board s) i;
      v ← index r j;
      if v =? 0 then Ok (Return false)
      else if bool_decide (v ∈ digits) then Ok Next
      else Raise AssertionError));
  match filled with
  | Return b => Ok b
  | Next =>
      if deep_check then
        lines ← for_ (range 0 9) (fun i =>
          '(row, col) ← for_acc (range 0 9) (fun j '(row, col) =>
            r ← index (board s) i;
            v ← index r j;
            r' ← index (board s) j;
            w ← index r' i;
            Ok ({[v]} ∪ row, {[w]} ∪ col)) (∅, ∅);
          if negb (len row =? 9) || negb (len col =? 9)
             || negb (sum row =? 45) || negb (sum col =? 45)
          then Ok (Return false)
          else Ok Next);
        match lines with
        | Return b => Ok b
        | Next =>
            squares ← for_ (range_step 0 9 3) (fun k =>
              for_ (range_step 0 9 3) (fun l =>
                square ← for_acc (range k (k + 3)) (fun i sq =>
                  for_acc (range l (l + 3)) (fun j sq =>
                    r ← index (board s) i;
                    v ← index r j;
                    Ok ({[v]} ∪ sq)) sq) ∅;
                if negb (len square =? 9) || negb (sum square =? 45)
                then Ok (Return false)
                else Ok Next));
            match squares with
            | Return b => Ok b
            | Next => Ok true
            end
        end
      else Ok true
  end.

(** * Notions of the specification *)

(** ** Screen positions and board indices *)

(** The map from a board index back to the screen, as the specification
    gives it: one more unit for every separator line before the cell. *)
Definition ij_to_yx (i : Z) : Z := i + i / 3 + 1.

Definition playable (y x : Z) : Prop :=
  0 <= y <= 12 ∧ 0 <= x <= 12 ∧ y mod 4 ≠ 0 ∧ x mod 4 ≠ 0.

(** ** Boards, as the specification speaks of them *)

(** The value of cell [(i, j)], for indices that are not negative. *)
Definition cell (b : list (list Z)) (i j : Z) : option Z :=
  row ← b !! Z.to_nat i; row !! Z.to_nat j.

Definition at_ (b : list (list Z)) (i j : Z) : Z := default 0 (cell b i j).

(** Nine rows of nine cells. *)
Definition wf_board (b : list (list Z)) : Prop :=
  length b = 9%nat ∧ Forall (fun row => length row = 9%nat) b.

Definition cells_in (lo hi : Z) (b : list (list Z)) : Prop :=
  Forall (Forall (fun v => lo <= v <= hi)) b.

Definition wf (s : Sudoku) : Prop :=
  wf_board (initial_board s) ∧ wf_board (board s).

(** A given cell holds a digit of the puzzle. *)
Definition given (s : Sudoku) (i j : Z) : Prop :=
  ∃ v, cell (initial_board s) i j = Some v ∧ v ≠ 0.

(** The player board agrees with the puzzle on every given cell. *)
Definition givens_kept (s : Sudoku) : Prop :=
  ∀ i j v, 0 <= i <= 8 → 0 <= j <= 8 →
    cell (initial_board s) i j = Some v → v ≠ 0 →
    cell (board s) i j = Some v.

(** ** Play actions and the states they reach *)

Inductive action : Type :=
  | Move (y x : Z) (dir : string)
  | Place (y x : Z) (num : string)
  | Del (y x : Z).

Definition perform (s : Sudoku) (a : action) : result Sudoku :=
  match a with
  | Move y x dir => Ok (try_move s y x dir)
  | Place y x num => try_place s y x num
  | Del y x => try_del s y x
  end.

(** The states of a game on [puzzle] in a terminal of [h] lines and [w]
    columns.  A call that raises ends the program and reaches no state. *)
Inductive reachable (h w : Z) (puzzle : list (list Z)) : Sudoku → Prop :=
  | reach_start : reachable h w puzzle (start h w puzzle)
  | reach_step s a s' :
      reachable h w puzzle s → perform s a = Ok s' →
      reachable h w puzzle s'.

(** ** Sudoku conflicts *)

Definition in_row (b : list (list Z)) (i d : Z) : Prop :=
  Exists (fun l => cell b i l = Some d) (range 0 9).

Definition in_col (b : list (list Z)) (j d : Z) : Prop :=
  Exists (fun k => cell b k j = Some d) (range 0 9).

(** The box whose top-left corner is [(i//3*3, j//3*3)]. *)
Definition in_box (b : list (list Z)) (i j d : Z) : Prop :=
  Exists (fun k =>
    Exists (fun l => cell b k l = Some d) (range (j / 3 * 3) (j / 3 * 3 + 3)))
    (range (i / 3 * 3) (i / 3 * 3 + 3)).

Definition conflict (b : list (list Z)) (i j d : Z) : Prop :=
  in_row b i d ∨ in_col b j d ∨ in_box b i j d.

(** The four arrow keys. *)
Inductive direction : Type := Up | Down | Left | Right.

Definition key (d : direction) : string :=
  match d with
  | Up => "KEY_UP"
  | Down => "KEY_DOWN"
  | Left => "KEY_LEFT"
  | Right => "KEY_RIGHT"
  end.

(** One unit from [(y, x)] in direction [d]. *)
Definition shift (d : direction) (y x : Z) : Z * Z :=
  match d with
  | Up => (y - 1, x)
  | Down => (y + 1, x)
  | Left => (y, x - 1)
  | Right => (y, x + 1)
  end.

(** The board that differs from [b] in cell [(i, j)] only, which holds
    [v]. *)
Definition set_cell (b : list (list Z)) (i j v : Z) : list (list Z) :=
  match b !! Z.to_nat i with
  | Some row => <[Z.to_nat i := <[Z.to_nat j := v]> row]> b
  | None => b
  end.

(** The board index of a playable screen coordinate. *)
Definition to_index (y : Z) : Z := (y - 1) - y / 4.

(** [s'] differs from [s] in at most one cell of the player board, and
    then in the cell of the playable position [(y, x)], which is not
    given. *)
Definition one_cell_change (s s' : Sudoku) (y x : Z) : Prop :=
  initial_board s' = initial_board s
  ∧ (board s' = board s
     ∨ (is_on_grid s y x = true
        ∧ ∃ i j, yx_to_ij s y x = (Some i, Some j)
                 ∧ ¬ given s i j
                 ∧ ∀ i' j', 0 <= i' → 0 <= j' → i' ≠ i ∨ j' ≠ j →
                     cell (board s') i' j' = cell (board s) i' j')).

(** One of the ten keys "0" to "9": one character that is a decimal digit.
    [play] hands the keys "1" to "9" to [try_place], and besides them the
    superscript digits, see [digit_key]. *)
Definition digit_string (num : string) : Prop :=
  ∃ c, num = String c EmptyString ∧ is_Some (digit_val c).

(** The state after one accepted placement in [game0]. *)
Definition game1 : Sudoku :=
  mkSudoku 24 80 puzzle
    [ [5;3;4;0;7;0;0;0;0];
      [6;0;0;1;9;5;0;0;0];
      [0;9;8;0;0;0;0;6;0];
      [8;0;0;0;6;0;0;0;3];
      [4;0;0;8;0;3;0;0;1];
      [7;0;0;0;2;0;0;0;6];
      [0;6;0;0;0;0;2;8;0];
      [0;0;0;4;1;9;0;0;5];
      [0;0;0;0;8;0;0;7;9] ]
    (1, 3).

(** ** Completed boards *)

Definition row_values (b : list (list Z)) (i : Z) : list Z :=
  (fun j => at_ b i j) <$> range 0 9.

Definition col_values (b : list (list Z)) (j : Z) : list Z :=
  (fun i => at_ b i j) <$> range 0 9.

(** The box whose top-left corner is [(k, l)]. *)
Definition box_values (b : list (list Z)) (k l : Z) : list Z :=
  i ← range k (k + 3); j ← range l (l + 3); [at_ b i j].

(** No cell is blank. *)
Definition full (b : list (list Z)) : Prop :=
  Forall (fun i => Forall (fun j => at_ b i j ≠ 0) (range 0 9)) (range 0 9).

(** Every row, every column and every box holds each of 1, ..., 9 once. *)
Definition rows_valid (b : list (list Z)) : Prop :=
  Forall (fun i => row_values b i ≡ₚ seqZ 1 9) (range 0 9).

Definition cols_valid (b : list (list Z)) : Prop :=
  Forall (fun j => col_values b j ≡ₚ seqZ 1 9) (range 0 9).

Definition boxes_valid (b : list (list Z)) : Prop :=
  Forall (fun k => Forall (fun l => box_values b k l ≡ₚ seqZ 1 9) [0; 3; 6])
         [0; 3; 6].

Definition complete (b : list (list Z)) : Prop :=
  full b ∧ rows_valid b ∧ cols_valid b ∧ boxes_valid b.

(** The test that [is_completed] applies to the set of the values of a
    row, a column or a box. *)
Definition unit_check (xs : gset Z) : bool :=
  (len xs =? 9) && (sum xs =? 45).

(** The three phases of [is_completed] as boolean tests. *)
Definition fullb (b : list (list Z)) : bool :=
  forallb (fun i => forallb (fun j => negb (at_ b i j =? 0)) (range 0 9))
          (range 0 9).

Definition linesb (b : list (list Z)) : bool :=
  forallb (fun i => unit_check (list_to_set (row_values b i))
                    && unit_check (list_to_set (col_values b i)))
          (range 0 9).

Definition boxesb (b : list (list Z)) : bool :=
  forallb (fun k =>
             forallb (fun l => unit_check (list_to_set (box_values b k l)))
                     (range_step 0 9 3))
          (range_step 0 9 3).

#[global] Instance conflict_dec b i j d : Decision (conflict b i j d).
Proof. unfold conflict, in_row, in_col, in_box. apply _. Defined.

(** * The main loop and the first drawing *)

(** ** [play]

    A key is what [stdscr.getkey()] returns: the name of a special key, or
    one character, whose code point is below 256.  The keys that arrive are
    a list; when the list is used up the loop is still waiting in [getkey]
    and has returned nothing yet, which is the result [None].  The loop
    calls [int] on one-character keys only, and on every one-character
    string of code points below 256 the model [int] gives what Python
    gives. *)

(** [c.isdigit()]: among the code points below 256 the digits are 0-9 and
    the superscripts 1, 2 and 3. *)
Definition is_digit_char (c : ascii) : bool :=
  let n := nat_of_ascii c in
  ((48 <=? n)%nat && (n <=? 57)%nat)
  || (n =? 178)%nat || (n =? 179)%nat || (n =? 185)%nat.

Definition isdigit (c : string) : bool :=
  match list_ascii_of_string c with
  | [] => false
  | cs => forallb is_digit_char cs
  end.

Definition KEY_ESC : string := String "027"%char EmptyString.
Definition KEY_BS : string := String "008"%char EmptyString.
Definition KEY_DEL : string := String "127"%char EmptyString.

Fixpoint play_loop (s : Sudoku) (keys : list string)
  : result (option string * Sudoku) :=
  match keys with
  | [] => Ok (None, s)
  | c :: keys' =>
      let '(y, x) := cursor s in
      if String.eqb c KEY_ESC then Ok (Some "quit"%string, s)
      else if String.eqb c "KEY_UP" then
        play_loop (try_move s (y - 1) x c) keys'
      else if String.eqb c "KEY_DOWN" then
        play_loop (try_move s (y + 1) x c) keys'
      else if String.eqb c "KEY_LEFT" then
        play_loop (try_move s y (x - 1) c) keys'
      else if String.eqb c "KEY_RIGHT" then
        play_loop (try_move s y (x + 1) c) keys'
      else if (String.length c =? 1)%nat && isdigit c
              && negb (String.eqb c "0") then
        s' ← try_place s y x c;
        is_completed s' true ≫= fun won : bool =>
        if won then Ok (Some "win"%string, s') else play_loop s' keys'
      else if String.eqb c "KEY_BACKSPACE" || String.eqb c KEY_BS
              || String.eqb c KEY_DEL then
        s' ← try_del s y x;
        play_loop s' keys'
      else play_loop s keys'
  end.

Definition play (s : Sudoku) (keys : list string)
  : result (option string * Sudoku) :=
  play_loop (move s 1 1) keys.

(** ** [init_board]

    What [init_board] draws is kept in a map from screen positions to the
    character drawn there last and whether it was drawn with colour
    pair 1. *)

Abbreviation screen := (gmap (Z * Z) (string * bool)).

Definition draw (scr : screen) (y x : Z) (ch : string) (red : bool) : screen :=
  <[(y, x) := (ch, red)]> scr.

(** [str(v)] for an integer: its decimal digits, after a minus sign when it
    is negative. *)
Definition str (v : Z) : string := pretty v.

Definition init_board (s : Sudoku) (scr : screen) : result (Sudoku * screen) :=
  for_acc (range 1 12) (fun x st =>
    for_acc (range 1 12) (fun y '(s, scr) =>
      let '(i, j) := yx_to_ij s y x in
      if x mod 4 =? 0 then
        Ok (addch s y x "|", draw scr y x "|" false)
      else if y mod 4 =? 0 then
        Ok (addch s y x "-", draw scr y x "-" false)
      else
        row ← subscript (initial_board s) i;
        v ← subscript row j;
        if negb (v =? 0) then
          Ok (addch s y x (str v), draw scr y x (str v) true)
        else
          row' ← subscript (board s) i;
          w ← subscript row' j;
          if negb (w =? 0) then
            Ok (addch s y x (str w), draw scr y x (str w) false)
          else Ok (s, scr)) st) (s, scr).

(** * Further notions of the specification *)

Definition opposite (d : direction) : direction :=
  match d with
  | Up => Down
  | Down => Up
  | Left => Right
  | Right => Left
  end.

(** The three one-character keys that [isdigit] accepts and [int]
    rejects: the superscripts 2, 3 and 1. *)
Definition superscript_key (c : string) : bool :=
  String.eqb c (String "178"%char EmptyString)
  || String.eqb c (String "179"%char EmptyString)
  || String.eqb c (String "185"%char EmptyString).

(** The 81 cells, and the cells that share a row, a column or a box. *)
Definition cells : list (Z * Z) := i ← range 0 9; j ← range 0 9; [(i, j)].

Definition peers (p q : Z * Z) : Prop :=
  p ≠ q ∧ (p.1 = q.1 ∨ p.2 = q.2 ∨ (p.1 / 3 = q.1 / 3 ∧ p.2 / 3 = q.2 / 3)).

(** No digit occurs twice in a row, a column or a box; blanks do not
    count. *)
Definition consistent (b : list (list Z)) : Prop :=
  Forall (fun p =>
    Forall (fun q =>
      peers p q → at_ b p.1 p.2 ≠ 0 → at_ b p.1 p.2 ≠ at_ b q.1 q.2) cells)
    cells.

#[global] Instance consistent_dec b : Decision (consistent b).
Proof. unfold consistent, peers. apply _. Defined.

(** The keys that [play] hands to [try_place]. *)
Definition digit_key (c : string) : bool :=
  (String.length c =? 1)%nat && isdigit c && negb (String.eqb c "0").

(** The cell next to [(i, j)] in direction [d], if the board has one. *)
Definition neighbour (d : direction) (i j : Z) : option (Z * Z) :=
  let '(i', j') := shift d i j in
  if (0 <=? i') && (i' <=? 8) && (0 <=? j') && (j' <=? 8)
  then Some (i', j') else None.

(** [playable] as a test. *)
Definition playableb (y x : Z) : bool :=
  (0 <=? y) && (y <=? 12) && (0 <=? x) && (x <=? 12)
  && negb (y mod 4 =? 0) && negb (x mod 4 =? 0).

(** The body of the two loops of [init_board], for the proofs. *)
Definition init_board_cell (x y : Z) (st : Sudoku * screen)
  : result (Sudoku * screen) :=
  let '(s, scr) := st in
  let '(i, j) := yx_to_ij s y x in
  if x mod 4 =? 0 then
    Ok (addch s y x "|", draw scr y x "|" false)
  else if y mod 4 =? 0 then
    Ok (addch s y x "-", draw scr y x "-" false)
  else
    row ← subscript (initial_board s) i;
    v ← subscript row j;
    if negb (v =? 0) then
      Ok (addch s y x (str v), draw scr y x (str v) true)
    else
      row' ← subscript (board s) i;
      w ← subscript row' j;
      if negb (w =? 0) then
        Ok (addch s y x (str w), draw scr y x (str w) false)
      else Ok (s, scr).

(** What [init_board] draws at [(y, x)], if anything: a separator, the
    digit of the puzzle in colour, or the digit of the player. *)
Definition glyph_at (s : Sudoku) (y x : Z) : option (string * bool) :=
  if x mod 4 =? 0 then Some ("|"%string, false)
  else if y mod 4 =? 0 then Some ("-"%string, false)
  else
    let v := at_ (initial_board s) (to_index y) (to_index x) in
    if negb (v =? 0) then Some (str v, true)
    else
      let w := at_ (board s) (to_index y) (to_index x) in
      if negb (w =? 0) then Some (str w, false) else None.

Definition paint (s : Sudoku) (scr : screen) (y x : Z) : screen :=
  match glyph_at s y x with
  | Some g => <[(y, x) := g]> scr
  | None => scr
  end.

(** The same game, with the cursor somewhere else. *)
Definition same_game (s s' : Sudoku) : Prop :=
  height s' = height s ∧ width s' = width s
  ∧ initial_board s' = initial_board s ∧ board s' = board s.

(** What the screen shows at [k] once [glyph_at] has been drawn over
    [scr]. *)
Definition painted (s : Sudoku) (scr : screen) (k : Z * Z)
  : option (string * bool) :=
  match glyph_at s k.1 k.2 with
  | Some g => Some g
  | None => scr !! k
  end.

(** * Sample runs *)

Example int_7 : int "7" = Ok 7.
Proof. reflexivity. Qed.

Example int_spaces : int " -1_2 " = Ok (-12).
Proof. reflexivity. Qed.

Example int_bad : int "1__2" = Raise ValueError.
Proof. reflexivity. Qed.

Example place_ok :
  board <$> try_place game0 1 3 "4" =
  Ok (<[0%nat := [5;3;4;0;7;0;0;0;0]]> puzzle).
Proof. vm_compute. reflexivity. Qed.

Example place_conflict : try_place game0 1 3 "5" = Ok game0.
Proof. vm_compute. reflexivity. Qed.

Example place_given : try_place game0 1 1 "4" = Ok game0.
Proof. vm_compute. reflexivity. Qed.

Example on_initial_off_grid : is_on_initial game0 4 4 = Raise TypeError.
Proof. vm_compute. reflexivity. Qed.

Example completed_solved : is_completed (start 24 80 solved) true = Ok true.
Proof. vm_compute. reflexivity. Qed.

Example completed_puzzle : is_completed game0 true = Ok false.
Proof. vm_compute. reflexivity. Qed.

Example place_bad_key : try_place game0 1 3 "x" = Raise ValueError.
Proof. vm_compute. reflexivity. Qed.

Example move_skips_separator :
  cursor (try_move (move game0 1 3) 1 4 "KEY_RIGHT") = (1, 5).
Proof. reflexivity. Qed.

Example move_at_right_edge :
  cursor (try_move (move game0 1 11) 1 12 "KEY_RIGHT") = (1, 11).
Proof. reflexivity. Qed.

Example completed_duplicate :
  is_completed (start 24 80 (<[0%nat := [5;3;4;6;7;8;9;1;5]]> solved)) true
  = Ok false.
Proof. vm_compute. reflexivity. Qed.

Example completed_shallow_duplicate :
  is_completed (start 24 80 (<[0%nat := [5;3;4;6;7;8;9;1;5]]> solved)) false
  = Ok true.
Proof. vm_compute. reflexivity. Qed.

Example completed_assertion :
  is_completed (start 24 80 (<[0%nat := [5;3;4;6;7;8;9;1;12]]> solved)) true
  = Raise AssertionError.
Proof. vm_compute. reflexivity. Qed.

Example completed_short_board :
  is_completed (start 24 80 [[1; 2; 3]]) true = Raise IndexError.
Proof. vm_compute. reflexivity. Qed.

Example isdigit_samples :
  (isdigit "7", isdigit "42", isdigit "", isdigit "4a",
   isdigit (String "178"%char EmptyString))
  = (true, true, false, false, true).
Proof. reflexivity. Qed.

Example play_quit :
  play game0 ["KEY_DOWN"; KEY_ESC; "5"]%string
  = Ok (Some "quit"%string, move game0 2 1).
Proof. vm_compute. reflexivity. Qed.

Example play_win :
  fst <$> play (start 24 80 (<[0%nat := [5;3;4;6;7;8;9;1;0]]> solved))
            ["KEY_LEFT"; "KEY_UP"; "KEY_RIGHT"; "KEY_RIGHT"; "KEY_RIGHT";
             "KEY_RIGHT"; "KEY_RIGHT"; "KEY_RIGHT"; "KEY_RIGHT"; "KEY_RIGHT";
             "KEY_RIGHT"; "3"; "2"; "KEY_DOWN"]%string
  = Ok (Some "win"%string).
Proof. vm_compute. reflexivity. Qed.

Example play_delete :
  board <$> (snd <$> play game1 ["KEY_RIGHT"; "KEY_RIGHT"; KEY_DEL]%string)
  = Ok puzzle.
Proof. vm_compute. reflexivity. Qed.

Example init_board_small : init_board (start 24 12 puzzle) ∅ = Raise TypeError.
Proof. vm_compute. reflexivity. Qed.

(** * Properties *)

(** ** The coordinate mapper *)

Lemma is_on_grid_true s y x :
  is_on_grid s y x = true ↔
  (0 <= y <= height s ∧ 0 <= x <= width s - 2) ∧ playable y x.
Proof.
  unfold is_on_grid, is_safe_pos, playable.
  destruct (Z.leb_spec 0 y), (Z.leb_spec y (height s)), (Z.leb_spec 0 x),
    (Z.leb_spec x (width s - 2)), (Z.leb_spec y 12), (Z.leb_spec x 12),
    (Z.eqb_spec (x mod 4) 0), (Z.eqb_spec (y mod 4) 0);
    simpl; split; intros; try discriminate; try lia; auto.
Qed.

Lemma is_on_grid_playable s y x :
  is_on_grid s y x = true → playable y x.
Proof. intros H. apply is_on_grid_true in H. tauto. Qed.

Lemma playable_cases y :
  0 <= y <= 12 → y mod 4 ≠ 0 →
  y ∈ [1; 2; 3; 5; 6; 7; 9; 10; 11].
Proof.
  intros Hy Hm.
  assert (y = 0 ∨ y = 1 ∨ y = 2 ∨ y = 3 ∨ y = 4 ∨ y = 5 ∨ y = 6 ∨ y = 7
          ∨ y = 8 ∨ y = 9 ∨ y = 10 ∨ y = 11 ∨ y = 12) as Hc by lia.
  repeat (destruct Hc as [-> | Hc]); try subst y;
    try (exfalso; apply Hm; reflexivity);
    repeat (first [apply list_elem_of_here | apply list_elem_of_further]).
Qed.

Lemma index_cases i :
  0 <= i <= 8 → i ∈ [0; 1; 2; 3; 4; 5; 6; 7; 8].
Proof.
  intros Hi.
  assert (i = 0 ∨ i = 1 ∨ i = 2 ∨ i = 3 ∨ i = 4 ∨ i = 5 ∨ i = 6 ∨ i = 7
          ∨ i = 8) as Hc by lia.
  repeat (destruct Hc as [-> | Hc]); try subst i;
    repeat (first [apply list_elem_of_here | apply list_elem_of_further]).
Qed.

Lemma to_index_range y :
  0 <= y <= 12 → y mod 4 ≠ 0 →
  0 <= (y - 1) - y / 4 <= 8 ∧ ij_to_yx ((y - 1) - y / 4) = y.
Proof.
  intros Hy Hm. pose proof (playable_cases y Hy Hm) as Hc.
  unfold ij_to_yx.
  repeat (apply elem_of_cons in Hc as [-> | Hc];
          [vm_compute; intuition congruence |]).
  by apply elem_of_nil in Hc.
Qed.

Lemma to_screen_range i :
  0 <= i <= 8 →
  0 <= ij_to_yx i <= 12 ∧ ij_to_yx i mod 4 ≠ 0
  ∧ (ij_to_yx i - 1) - ij_to_yx i / 4 = i ∧ ij_to_yx i <= 11.
Proof.
  intros Hi. pose proof (index_cases i Hi) as Hc.
  repeat (apply elem_of_cons in Hc as [-> | Hc];
          [vm_compute; intuition congruence |]).
  by apply elem_of_nil in Hc.
Qed.

Lemma yx_to_ij_on_grid s y x :
  is_on_grid s y x = true →
  yx_to_ij s y x = (Some ((y - 1) - y / 4), Some ((x - 1) - x / 4)).
Proof. intros H. unfold yx_to_ij. by rewrite H. Qed.

Lemma yx_to_ij_off_grid s y x :
  is_on_grid s y x = false → yx_to_ij s y x = (None, None).
Proof. intros H. unfold yx_to_ij. by rewrite H. Qed.

(** C5: on a terminal of at least 11 lines and 13 columns, the playable
    positions are exactly the positions of the 13 x 13 span that lie on no
    separator line, and [yx_to_ij], which is [((y-1)-(y//4), (x-1)-(x//4))]
    there, is a bijection from them onto [0,8] x [0,8] whose inverse is
    [i ↦ i + i//3 + 1] on each coordinate: both compositions are the
    identity. *)
Theorem yx_to_ij_bijection s :
  11 <= height s → 13 <= width s →
  (∀ y x, is_on_grid s y x = true ↔ playable y x)
  ∧ (∀ y x, playable y x →
       ∃ i j, yx_to_ij s y x = (Some i, Some j)
              ∧ i = (y - 1) - y / 4 ∧ j = (x - 1) - x / 4
              ∧ 0 <= i <= 8 ∧ 0 <= j <= 8
              ∧ ij_to_yx i = y ∧ ij_to_yx j = x)
  ∧ (∀ i j, 0 <= i <= 8 → 0 <= j <= 8 →
       playable (ij_to_yx i) (ij_to_yx j)
       ∧ yx_to_ij s (ij_to_yx i) (ij_to_yx j) = (Some i, Some j))
  ∧ (∀ y x y' x', playable y x → playable y' x' →
       yx_to_ij s y x = yx_to_ij s y' x' → y = y' ∧ x = x').
Proof.
  intros Hh Hw.
  assert (Hgrid : ∀ y x, is_on_grid s y x = true ↔ playable y x).
  { intros y x. rewrite is_on_grid_true. split; [tauto |].
    intros Hp. split; [| done]. destruct Hp as (Hy & Hx & Hym & Hxm).
    pose proof (to_index_range y Hy Hym) as [_ Ey].
    pose proof (to_index_range x Hx Hxm) as [_ Ex].
    assert (y ≠ 12) by (intros ->; by apply Hym).
    assert (x ≠ 12) by (intros ->; by apply Hxm).
    lia. }
  split; [exact Hgrid |]. split; [| split].
  - intros y x Hp. pose proof Hp as (Hy & Hx & Hym & Hxm).
    apply Hgrid in Hp.
    destruct (to_index_range y Hy Hym) as [? ?].
    destruct (to_index_range x Hx Hxm) as [? ?].
    eexists _, _. rewrite (yx_to_ij_on_grid _ _ _ Hp). done.
  - intros i j Hi Hj.
    destruct (to_screen_range i Hi) as (? & ? & Ei & ?).
    destruct (to_screen_range j Hj) as (? & ? & Ej & ?).
    assert (Hp : playable (ij_to_yx i) (ij_to_yx j))
      by (unfold playable; tauto).
    split; [exact Hp |]. apply Hgrid in Hp.
    rewrite (yx_to_ij_on_grid _ _ _ Hp). by rewrite Ei, Ej.
  - intros y x y' x' Hp Hp' E.
    pose proof Hp as (Hy & Hx & Hym & Hxm).
    pose proof Hp' as (Hy' & Hx' & Hym' & Hxm').
    apply Hgrid in Hp, Hp'.
    rewrite (yx_to_ij_on_grid _ _ _ Hp), (yx_to_ij_on_grid _ _ _ Hp') in E.
    injection E as Ey Ex.
    destruct (to_index_range y Hy Hym) as [_ Ry].
    destruct (to_index_range y' Hy' Hym') as [_ Ry'].
    destruct (to_index_range x Hx Hxm) as [_ Rx].
    destruct (to_index_range x' Hx' Hxm') as [_ Rx'].
    split; congruence.
Qed.

Lemma yx_to_ij_bijection_witness :
  (∀ y x, is_on_grid game0 y x = true ↔ playable y x)
  ∧ yx_to_ij game0 11 5 = (Some 8, Some 3)
  ∧ (ij_to_yx 8, ij_to_yx 3) = (11, 5).
Proof.
  destruct (yx_to_ij_bijection game0) as (H & _);
    [vm_compute; discriminate ..|].
  split; [exact H |]. split; reflexivity.
Defined.

(** ** Cursor navigation *)

(** C4: [try_move(y, x, dir)] for an arrow key [dir] changes nothing but
    the cursor, and afterwards the cursor is at [(y, x)] if that position is
    playable, otherwise at the position one more unit in the direction of the
    key if that one is playable, and otherwise where it was.  With the cursor
    in column 11 a move to the right leaves the cursor in column 11,
    whatever the terminal size: 12 is a separator and 13 is outside the grid
    span. *)
Theorem try_move_skips_one_separator :
  (∀ s d y x,
     same_game s (try_move s y x (key d))
     ∧ cursor (try_move s y x (key d)) =
       if is_on_grid s y x then (y, x)
       else if is_on_grid s (shift d y x).1 (shift d y x).2 then shift d y x
       else cursor s)
  ∧ (∀ s y, is_on_grid s y 12 = false ∧ is_on_grid s y 13 = false)
  ∧ (∀ h w ib b y,
       let s := mkSudoku h w ib b (y, 11) in
       cursor (try_move s y (11 + 1) (key Right)) = (y, 11)
       ∧ try_move s y (11 + 1) (key Right) = s).
Proof.
  assert (H12 : ∀ s y, is_on_grid s y 12 = false ∧ is_on_grid s y 13 = false).
  { intros s y. split; apply not_true_is_false; intros H;
      apply is_on_grid_playable in H; destruct H as (_ & ? & _ & Hx);
      [by apply Hx | lia]. }
  split; [| split; [exact H12 |]].
  - intros s d y x. unfold try_move, same_game.
    destruct (is_on_grid s y x); [done |].
    destruct d; simpl;
      repeat match goal with
             | |- context [is_on_grid s ?a ?b] => destruct (is_on_grid s a b)
             end; done.
  - intros h w ib b y. simpl. unfold try_move.
    destruct (H12 (mkSudoku h w ib b (y, 11)) y) as [E12 E13].
    change (11 + 1) with 12. change (12 + 1) with 13.
    rewrite E12, E13. done.
Qed.

(** ** Subscripts *)

Lemma index_nonneg {A} (l : list A) i :
  0 <= i →
  index l i = match l !! Z.to_nat i with
              | Some a => Ok a
              | None => Raise IndexError
              end.
Proof.
  intros Hi. unfold index.
  destruct (Z.ltb_spec i 0); [lia |].
  destruct (Z.leb_spec 0 i); [| lia].
  destruct (Z.ltb_spec i (Z.of_nat (length l))); simpl; [done |].
  rewrite lookup_ge_None_2; [done | lia].
Qed.

Lemma setitem_nonneg {A} (l : list A) i v :
  0 <= i →
  setitem l (Some i) v =
  if i <? Z.of_nat (length l) then Ok (<[Z.to_nat i := v]> l)
  else Raise IndexError.
Proof.
  intros Hi. unfold setitem.
  destruct (Z.ltb_spec i 0); [lia |].
  destruct (Z.leb_spec 0 i); [| lia]. done.
Qed.

Lemma store_cell_Ok b i j v b' :
  0 <= i → 0 <= j →
  (store_cell b (Some i) (Some j) v = Ok b' ↔
   ∃ row, b !! Z.to_nat i = Some row ∧ (Z.to_nat j < length row)%nat
          ∧ b' = <[Z.to_nat i := <[Z.to_nat j := v]> row]> b).
Proof.
  intros Hi Hj. unfold store_cell. cbn [subscript].
  rewrite index_nonneg by done.
  destruct (b !! Z.to_nat i) as [row |] eqn:Er; cbn [mbind result_bind].
  - rewrite setitem_nonneg by done.
    destruct (Z.ltb_spec j (Z.of_nat (length row))); cbn [mbind result_bind].
    + apply lookup_lt_Some in Er as Hlt. rewrite setitem_nonneg by done.
      destruct (Z.ltb_spec i (Z.of_nat (length b))); [| lia].
      split.
      * intros [= <-]. exists row. split; [done |]. split; [lia | done].
      * intros (row' & [= <-] & _ & ->). done.
    + split; [discriminate |]. intros (row' & [= <-] & ? & _). lia.
  - split; [discriminate |]. intros (? & ? & _). discriminate.
Qed.

Lemma cell_store b i j v row i' j' :
  0 <= i → 0 <= j → 0 <= i' → 0 <= j' →
  b !! Z.to_nat i = Some row → (Z.to_nat j < length row)%nat →
  cell (<[Z.to_nat i := <[Z.to_nat j := v]> row]> b) i' j' =
  if decide (i' = i ∧ j' = j) then Some v else cell b i' j'.
Proof.
  intros Hi Hj Hi' Hj' Er Hlt. unfold cell.
  apply lookup_lt_Some in Er as Hlti.
  destruct (decide (i' = i)) as [-> | Hne].
  - rewrite list_lookup_insert_eq by done. rewrite Er. simpl.
    destruct (decide (j' = j)) as [-> | Hnej].
    + rewrite list_lookup_insert_eq by done. by rewrite decide_True.
    + rewrite list_lookup_insert_ne by lia. rewrite decide_False; tauto.
  - rewrite list_lookup_insert_ne by lia. rewrite decide_False; tauto.
Qed.

(** ** Boards of nine rows of nine cells *)

Lemma to_index_bounds s y x :
  is_on_grid s y x = true →
  0 <= to_index y <= 8 ∧ 0 <= to_index x <= 8.
Proof.
  intros H. apply is_on_grid_playable in H as (Hy & Hx & Hym & Hxm).
  split; [apply (to_index_range y) | apply (to_index_range x)]; done.
Qed.

Lemma wf_board_row b i :
  wf_board b → 0 <= i <= 8 →
  ∃ row, b !! Z.to_nat i = Some row ∧ length row = 9%nat.
Proof.
  intros [Hl Hr] Hi.
  destruct (lookup_lt_is_Some_2 b (Z.to_nat i)) as [row Er]; [lia |].
  exists row. split; [done |]. eapply Forall_lookup_1 in Hr; eauto.
Qed.

Lemma cell_wf b i j :
  wf_board b → 0 <= i <= 8 → 0 <= j <= 8 → cell b i j = Some (at_ b i j).
Proof.
  intros Hwf Hi Hj. unfold at_, cell.
  destruct (wf_board_row b i Hwf Hi) as (row & -> & Hl). simpl.
  destruct (lookup_lt_is_Some_2 row (Z.to_nat j)) as [v ->]; [lia | done].
Qed.

Lemma index_cell b i j :
  wf_board b → 0 <= i <= 8 → 0 <= j <= 8 →
  (row ← index b i; index row j) = Ok (at_ b i j).
Proof.
  intros Hwf Hi Hj. pose proof (cell_wf b i j Hwf Hi Hj) as Hc.
  unfold cell in Hc. rewrite index_nonneg by lia.
  destruct (b !! Z.to_nat i) as [row |]; [| discriminate]. simpl in *.
  rewrite index_nonneg by lia. by rewrite Hc.
Qed.

Lemma elem_of_range k a b : k ∈ range a b ↔ a <= k < b.
Proof. unfold range. rewrite elem_of_seqZ. lia. Qed.

Lemma box_bounds i k :
  0 <= i <= 8 → i / 3 * 3 <= k < i / 3 * 3 + 3 → 0 <= k <= 8.
Proof.
  intros Hi Hk. Z.to_euclidean_division_equations. lia.
Qed.

Lemma mapM_Ok {A B} (f : A → result B) (g : A → B) l :
  (∀ x, x ∈ l → f x = Ok (g x)) → mapM f l = Ok (g <$> l).
Proof.
  induction l as [| a l IH]; intros H; [done |]. simpl.
  rewrite (H a) by apply list_elem_of_here. simpl.
  rewrite IH; [done |]. intros x Hx. apply H. by apply list_elem_of_further.
Qed.

Lemma this_col_wf b j :
  wf_board b → 0 <= j <= 8 →
  this_col b (Some j) = Ok ((fun k => at_ b k j) <$> range 0 9).
Proof.
  intros Hwf Hj. unfold this_col. apply mapM_Ok.
  intros k Hk. apply elem_of_range in Hk. apply index_cell; [done | lia | done].
Qed.

Lemma this_square_wf b i j :
  wf_board b → 0 <= i <= 8 → 0 <= j <= 8 →
  this_square b (Some i) (Some j) =
  Ok (concat ((fun k => (fun l => at_ b k l)
                          <$> range (j / 3 * 3) (j / 3 * 3 + 3))
                <$> range (i / 3 * 3) (i / 3 * 3 + 3))).
Proof.
  intros Hwf Hi Hj. unfold this_square. cbn [as_int mbind result_bind].
  rewrite (mapM_Ok _ (fun k => (fun l => at_ b k l)
                          <$> range (j / 3 * 3) (j / 3 * 3 + 3)));
    [done |].
  intros k Hk. apply elem_of_range in Hk. cbn [mbind result_bind].
  apply mapM_Ok. intros l Hl. apply elem_of_range in Hl.
  apply index_cell; [done | by apply (box_bounds i) | by apply (box_bounds j)].
Qed.

Lemma elem_of_row_in_row b i row d :
  0 <= i → b !! Z.to_nat i = Some row → length row = 9%nat →
  d ∈ row ↔ in_row b i d.
Proof.
  intros Hi Er Hl. unfold in_row. rewrite Exists_exists.
  rewrite list_elem_of_lookup. split.
  - intros [n Hn]. exists (Z.of_nat n).
    apply lookup_lt_Some in Hn as Hlt. rewrite elem_of_range.
    split; [lia |]. unfold cell. rewrite Er. simpl. by rewrite Nat2Z.id.
  - intros (l & Hr & Hc). unfold cell in Hc. rewrite Er in Hc. eauto.
Qed.

Lemma elem_of_col_in_col b j d :
  wf_board b → 0 <= j <= 8 →
  d ∈ (fun k => at_ b k j) <$> range 0 9 ↔ in_col b j d.
Proof.
  intros Hwf Hj. unfold in_col. rewrite Exists_exists, list_elem_of_fmap.
  split; intros (k & H1 & H2).
  - exists k. split; [done |]. apply elem_of_range in H2.
    rewrite cell_wf by (done || lia). by rewrite H1.
  - exists k. split; [| done]. apply elem_of_range in H1.
    rewrite cell_wf in H2 by (done || lia). congruence.
Qed.

Lemma elem_of_square_in_box b i j d :
  wf_board b → 0 <= i <= 8 → 0 <= j <= 8 →
  d ∈ concat ((fun k => (fun l => at_ b k l)
                          <$> range (j / 3 * 3) (j / 3 * 3 + 3))
                <$> range (i / 3 * 3) (i / 3 * 3 + 3))
  ↔ in_box b i j d.
Proof.
  intros Hwf Hi Hj. unfold in_box. rewrite Exists_exists.
  rewrite list_elem_of_In, in_concat. split.
  - intros (vs & Hvs & Hd). apply list_elem_of_In in Hvs, Hd.
    apply list_elem_of_fmap in Hvs as (k & -> & Hk).
    apply list_elem_of_fmap in Hd as (l & -> & Hl).
    exists k. split; [done |]. apply Exists_exists. exists l. split; [done |].
    apply elem_of_range in Hk, Hl.
    apply cell_wf; [done | by apply (box_bounds i) | by apply (box_bounds j)].
  - intros (k & Hk & Hex). apply Exists_exists in Hex as (l & Hl & Hc).
    exists ((fun l => at_ b k l) <$> range (j / 3 * 3) (j / 3 * 3 + 3)).
    rewrite <- !list_elem_of_In. split.
    + apply list_elem_of_fmap. by exists k.
    + apply list_elem_of_fmap. exists l. split; [| done].
      apply elem_of_range in Hk, Hl.
      rewrite cell_wf in Hc;
        [congruence | done | by apply (box_bounds i) | by apply (box_bounds j)].
Qed.


(** ** [is_on_initial], [try_place] and [try_del] on a playable position *)

Lemma is_on_initial_on_grid s y x :
  is_on_grid s y x = true →
  is_on_initial s y x =
  match cell (initial_board s) (to_index y) (to_index x) with
  | Some v => Ok (negb (v =? 0))
  | None => Raise IndexError
  end.
Proof.
  intros Hg. destruct (to_index_bounds s y x Hg) as [Hi Hj].
  unfold is_on_initial. rewrite (yx_to_ij_on_grid s y x Hg).
  fold (to_index y) (to_index x). cbn [subscript]. unfold cell.
  rewrite index_nonneg by lia.
  destruct (initial_board s !! Z.to_nat (to_index y)) as [row |];
    cbn [mbind result_bind option_bind]; [| done].
  rewrite index_nonneg by lia.
  by destruct (row !! Z.to_nat (to_index x)).
Qed.

Lemma is_on_initial_off_grid s y x :
  is_on_grid s y x = false → is_on_initial s y x = Raise TypeError.
Proof.
  intros Hg. unfold is_on_initial. by rewrite (yx_to_ij_off_grid s y x Hg).
Qed.

Lemma is_on_initial_false s y x :
  is_on_grid s y x = true →
  (is_on_initial s y x = Ok false ↔
   cell (initial_board s) (to_index y) (to_index x) = Some 0).
Proof.
  intros Hg. rewrite (is_on_initial_on_grid s y x Hg).
  destruct (cell _ _ _) as [v |]; [| split; discriminate].
  destruct (Z.eqb_spec v 0) as [-> | Hne]; simpl; split; try done.
  intros [= ->]. done.
Qed.

Ltac bind_inv H :=
  match type of H with
  | (?m ≫= _) = Ok _ =>
      let E := fresh "E" in
      destruct m eqn:E; cbn [mbind result_bind] in H; [| discriminate H]
  end.

(** What a call of [try_place] that returns has done: nothing, or one
    store into the cell of a playable position that is not given. *)
Lemma try_place_inv s y x num s' :
  try_place s y x num = Ok s' →
  s' = s
  ∨ (is_on_grid s y x = true
     ∧ cell (initial_board s) (to_index y) (to_index x) = Some 0
     ∧ ∃ d row,
         int num = Ok d
         ∧ board s !! Z.to_nat (to_index y) = Some row
         ∧ (Z.to_nat (to_index x) < length row)%nat
         ∧ s' = mkSudoku (height s) (width s) (initial_board s)
                  (<[Z.to_nat (to_index y) :=
                       <[Z.to_nat (to_index x) := d]> row]> (board s))
                  (y, x)).
Proof.
  unfold try_place. intros H.
  destruct (is_on_grid s y x) eqn:Hg; [| left; congruence].
  destruct (to_index_bounds s y x Hg) as [Hi Hj].
  bind_inv H. destruct a; cbn [negb] in H; [left; congruence |].
  apply (is_on_initial_false s y x Hg) in E.
  rewrite (yx_to_ij_on_grid s y x Hg) in H.
  fold (to_index y) (to_index x) in H.
  do 4 bind_inv H.
  destruct (_ || _) in H; [left; congruence |].
  bind_inv H. injection H as <-.
  apply store_cell_Ok in E4 as (row & Er & Hlt & ->); [| lia | lia].
  right. split; [done |]. split; [done |]. by exists a2, row.
Qed.

Lemma try_del_inv s y x s' :
  try_del s y x = Ok s' →
  s' = s
  ∨ (is_on_grid s y x = true
     ∧ cell (initial_board s) (to_index y) (to_index x) = Some 0
     ∧ ∃ row,
         board s !! Z.to_nat (to_index y) = Some row
         ∧ (Z.to_nat (to_index x) < length row)%nat
         ∧ s' = mkSudoku (height s) (width s) (initial_board s)
                  (<[Z.to_nat (to_index y) :=
                       <[Z.to_nat (to_index x) := 0]> row]> (board s))
                  (y, x)).
Proof.
  unfold try_del. intros H.
  destruct (is_on_grid s y x) eqn:Hg; [| left; congruence].
  destruct (to_index_bounds s y x Hg) as [Hi Hj].
  bind_inv H. destruct a; cbn [negb] in H; [left; congruence |].
  apply (is_on_initial_false s y x Hg) in E.
  rewrite (yx_to_ij_on_grid s y x Hg) in H.
  fold (to_index y) (to_index x) in H.
  bind_inv H. injection H as <-.
  apply store_cell_Ok in E0 as (row & Er & Hlt & ->); [| lia | lia].
  right. split; [done |]. split; [done |]. by exists row.
Qed.

Lemma store_cell_wf b i j v :
  wf_board b → 0 <= i <= 8 → 0 <= j <= 8 →
  store_cell b (Some i) (Some j) v = Ok (set_cell b i j v).
Proof.
  intros Hwf Hi Hj. destruct (wf_board_row b i Hwf Hi) as (row & Er & Hl).
  apply store_cell_Ok; [lia | lia |]. exists row. unfold set_cell.
  rewrite Er. split; [done |]. split; [lia | done].
Qed.

Lemma cell_set_cell b i j v i' j' :
  wf_board b → 0 <= i <= 8 → 0 <= j <= 8 → 0 <= i' → 0 <= j' →
  cell (set_cell b i j v) i' j' =
  if decide (i' = i ∧ j' = j) then Some v else cell b i' j'.
Proof.
  intros Hwf Hi Hj Hi' Hj'.
  destruct (wf_board_row b i Hwf Hi) as (row & Er & Hl).
  unfold set_cell. rewrite Er. apply cell_store; (done || lia).
Qed.

(** [try_place] on a board of nine rows of nine cells, at a playable
    position: the three collections are those of the rules of Sudoku. *)
Lemma try_place_wf s y x num :
  wf s → is_on_grid s y x = true →
  try_place s y x num =
  if at_ (initial_board s) (to_index y) (to_index x) =? 0 then
    d ← int num;
    if bool_decide (conflict (board s) (to_index y) (to_index x) d)
    then Ok s
    else Ok (mkSudoku (height s) (width s) (initial_board s)
               (set_cell (board s) (to_index y) (to_index x) d) (y, x))
  else Ok s.
Proof.
  intros [Hwi Hwb] Hg. destruct (to_index_bounds s y x Hg) as [Hi Hj].
  unfold try_place. rewrite Hg, (is_on_initial_on_grid s y x Hg).
  rewrite (cell_wf _ _ _ Hwi Hi Hj). cbn [mbind result_bind].
  destruct (at_ (initial_board s) (to_index y) (to_index x) =? 0);
    cbn [negb]; [| done].
  rewrite (yx_to_ij_on_grid s y x Hg). fold (to_index y) (to_index x).
  destruct (wf_board_row _ _ Hwb Hi) as (row & Er & Hl).
  cbn [subscript]. rewrite index_nonneg by lia. rewrite Er.
  cbn [mbind result_bind].
  rewrite (this_col_wf _ _ Hwb Hj), (this_square_wf _ _ _ Hwb Hi Hj).
  cbn [mbind result_bind].
  destruct (int num) as [d |]; cbn [mbind result_bind]; [| done].
  assert (Hc : bool_decide (d ∈ row)
               || bool_decide (d ∈ (fun k => at_ (board s) k (to_index x))
                                     <$> range 0 9)
               || bool_decide (d ∈ concat
                    ((fun k => (fun l => at_ (board s) k l)
                       <$> range (to_index x / 3 * 3) (to_index x / 3 * 3 + 3))
                     <$> range (to_index y / 3 * 3) (to_index y / 3 * 3 + 3)))
               = bool_decide (conflict (board s) (to_index y) (to_index x) d)).
  { apply eq_true_iff_eq. rewrite !orb_true_iff, !bool_decide_eq_true.
    rewrite (elem_of_row_in_row (board s) (to_index y) row d) by (done || lia).
    rewrite (elem_of_col_in_col _ _ _ Hwb Hj).
    rewrite (elem_of_square_in_box _ _ _ _ Hwb Hi Hj).
    unfold conflict. tauto. }
  rewrite Hc. destruct (bool_decide (conflict _ _ _ _)); [done |].
  cbn [addch board]. rewrite (store_cell_wf _ _ _ _ Hwb Hi Hj). done.
Qed.

Lemma try_del_wf s y x :
  wf s → is_on_grid s y x = true →
  try_del s y x =
  if at_ (initial_board s) (to_index y) (to_index x) =? 0 then
    Ok (mkSudoku (height s) (width s) (initial_board s)
          (set_cell (board s) (to_index y) (to_index x) 0) (y, x))
  else Ok s.
Proof.
  intros [Hwi Hwb] Hg. destruct (to_index_bounds s y x Hg) as [Hi Hj].
  unfold try_del. rewrite Hg, (is_on_initial_on_grid s y x Hg).
  rewrite (cell_wf _ _ _ Hwi Hi Hj). cbn [mbind result_bind].
  destruct (at_ (initial_board s) (to_index y) (to_index x) =? 0);
    cbn [negb]; [| done].
  rewrite (yx_to_ij_on_grid s y x Hg). fold (to_index y) (to_index x).
  cbn [addch board]. rewrite (store_cell_wf _ _ _ _ Hwb Hi Hj). done.
Qed.

(** ** Frame properties *)

Lemma try_move_fields s y x dir :
  initial_board (try_move s y x dir) = initial_board s
  ∧ board (try_move s y x dir) = board s
  ∧ height (try_move s y x dir) = height s
  ∧ width (try_move s y x dir) = width s.
Proof.
  unfold try_move.
  repeat match goal with
         | |- context [if ?c then _ else _] => destruct c
         end; done.
Qed.

Lemma blank_not_given s i j :
  cell (initial_board s) i j = Some 0 → ¬ given s i j.
Proof. intros E (v & Ev & Hv). congruence. Qed.

Lemma not_given_blank s i j :
  wf s → 0 <= i <= 8 → 0 <= j <= 8 →
  ¬ given s i j → cell (initial_board s) i j = Some 0.
Proof.
  intros [Hwi _] Hi Hj Hng. rewrite (cell_wf _ _ _ Hwi Hi Hj) in *.
  destruct (decide (at_ (initial_board s) i j = 0)) as [-> | Hne]; [done |].
  exfalso. apply Hng. exists (at_ (initial_board s) i j).
  by rewrite (cell_wf _ _ _ Hwi Hi Hj).
Qed.

Lemma try_place_one_cell s y x num s' :
  try_place s y x num = Ok s' → one_cell_change s s' y x.
Proof.
  intros H.
  apply try_place_inv in H
    as [-> | (Hg & Hb & d & row & _ & Er & Hlt & ->)].
  - split; [done | by left].
  - destruct (to_index_bounds s y x Hg) as [Hi Hj].
    split; [done |]. right. split; [done |].
    exists (to_index y), (to_index x).
    split; [by apply yx_to_ij_on_grid |].
    split; [by apply blank_not_given |].
    intros i' j' Hi' Hj' Hne. cbn [board].
    rewrite cell_store by (done || lia). rewrite decide_False; [done | lia].
Qed.

Lemma try_del_one_cell s y x s' :
  try_del s y x = Ok s' → one_cell_change s s' y x.
Proof.
  intros H. apply try_del_inv in H as [-> | (Hg & Hb & row & Er & Hlt & ->)].
  - split; [done | by left].
  - destruct (to_index_bounds s y x Hg) as [Hi Hj].
    split; [done |]. right. split; [done |].
    exists (to_index y), (to_index x).
    split; [by apply yx_to_ij_on_grid |].
    split; [by apply blank_not_given |].
    intros i' j' Hi' Hj' Hne. cbn [board].
    rewrite cell_store by (done || lia). rewrite decide_False; [done | lia].
Qed.

Lemma one_cell_change_given s s' y x i j :
  one_cell_change s s' y x → 0 <= i → 0 <= j → given s i j →
  cell (board s') i j = cell (board s) i j.
Proof.
  intros [_ [-> | (Hg & i0 & j0 & _ & Hng & Hfr)]] Hi Hj Hgiven; [done |].
  apply Hfr; [done | done |].
  destruct (decide (i = i0)) as [-> | ?]; [| by left].
  destruct (decide (j = j0)) as [-> | ?]; [| by right]. done.
Qed.

Lemma perform_given s a s' i j :
  perform s a = Ok s' → 0 <= i → 0 <= j → given s i j →
  initial_board s' = initial_board s
  ∧ cell (board s') i j = cell (board s) i j.
Proof.
  intros H Hi Hj Hgiven. destruct a as [y x dir | y x num | y x]; simpl in H.
  - injection H as <-. destruct (try_move_fields s y x dir) as (-> & -> & _).
    done.
  - apply try_place_one_cell in H. split; [apply H |].
    by eapply one_cell_change_given.
  - apply try_del_one_cell in H. split; [apply H |].
    by eapply one_cell_change_given.
Qed.

(** C1: in every state that a game reaches by calls of [try_move],
    [try_place] and [try_del], the player board holds the digit of the
    puzzle in every given cell; and no single call, whatever its arguments
    and whatever the state, changes the value of a given cell. *)
Theorem given_cells_never_change :
  (∀ h w puzzle s,
     reachable h w puzzle s →
     initial_board s = puzzle ∧ givens_kept s)
  ∧ (∀ s a s' i j,
       perform s a = Ok s' → 0 <= i <= 8 → 0 <= j <= 8 → given s i j →
       cell (board s') i j = cell (board s) i j).
Proof.
  split.
  - intros h w p s Hr. induction Hr as [| s a s' Hr [IHi IHk] Hp].
    + split; [done |]. by intros i j v _ _ ? _.
    + assert (Hib : initial_board s' = initial_board s).
      { destruct a as [y x dir | y x num | y x]; simpl in Hp.
        - injection Hp as <-. apply try_move_fields.
        - apply try_place_one_cell in Hp. apply Hp.
        - apply try_del_one_cell in Hp. apply Hp. }
      split; [congruence |].
      intros i j v Hi Hj Hc Hv. rewrite Hib in Hc.
      destruct (perform_given s a s' i j Hp) as [_ ->]; [lia | lia | |].
      * by exists v.
      * by apply IHk.
  - intros s a s' i j Hp Hi Hj Hgiven.
    by destruct (perform_given s a s' i j Hp) as [_ ->]; [lia | lia | |].
Qed.

Lemma given_cells_never_change_witness :
  givens_kept game1
  ∧ ∀ s', perform game1 (Place 1 1 "9") = Ok s' →
          cell (board s') 0 0 = cell (board game1) 0 0.
Proof.
  destruct given_cells_never_change as [Hreach Hcall]. split.
  - apply (Hreach 24 80 puzzle game1).
    apply (reach_step 24 80 puzzle game0 (Place 1 3 "4") game1).
    + apply reach_start.
    + vm_compute. reflexivity.
  - intros s' Hp. apply (Hcall game1 (Place 1 1 "9") s' 0 0 Hp); [lia | lia |].
    exists 5. split; [reflexivity | discriminate].
Defined.

(** C8: a call of [try_place] or [try_del] that returns has changed at most
    one cell of the player board, the cell [yx_to_ij(y, x)] of a playable
    position that is not given, and every other cell holds what it held;
    [try_move] changes no cell; and no operation changes
    [initial_board]. *)
Theorem one_call_one_cell s a s' :
  perform s a = Ok s' →
  initial_board s' = initial_board s
  ∧ match a with
    | Move _ _ _ => board s' = board s
    | Place y x _ | Del y x => one_cell_change s s' y x
    end.
Proof.
  intros Hp. destruct a as [y x dir | y x num | y x]; simpl in Hp.
  - injection Hp as <-. destruct (try_move_fields s y x dir) as (? & ? & _).
    done.
  - apply try_place_one_cell in Hp. split; [apply Hp | done].
  - apply try_del_one_cell in Hp. split; [apply Hp | done].
Qed.

Lemma one_call_one_cell_witness :
  initial_board game1 = initial_board game0
  ∧ one_cell_change game0 game1 1 3.
Proof.
  apply (one_call_one_cell game0 (Place 1 3 "4") game1).
  vm_compute. reflexivity.
Defined.

(** ** Placing and deleting on a well-formed game *)

Lemma yx_to_ij_Some s y x i j :
  yx_to_ij s y x = (Some i, Some j) →
  is_on_grid s y x = true ∧ i = to_index y ∧ j = to_index x
  ∧ 0 <= i <= 8 ∧ 0 <= j <= 8.
Proof.
  unfold yx_to_ij. destruct (is_on_grid s y x) eqn:Hg; [| discriminate].
  intros [= <- <-]. destruct (to_index_bounds s y x Hg). done.
Qed.

Lemma blank_at s i j :
  cell (initial_board s) i j = Some 0 →
  (at_ (initial_board s) i j =? 0) = true.
Proof. intros E. unfold at_. by rewrite E. Qed.

Lemma given_at s i j :
  given s i j → (at_ (initial_board s) i j =? 0) = false.
Proof.
  intros (v & E & Hv). unfold at_. rewrite E. by apply Z.eqb_neq.
Qed.

Lemma set_cell_same b i j v :
  cell b i j = Some v → set_cell b i j v = b.
Proof.
  unfold cell, set_cell. destruct (b !! Z.to_nat i) as [row |] eqn:Er; [| done].
  simpl. intros Ev. rewrite (list_insert_id row) by done.
  by apply list_insert_id.
Qed.

(** C2: at a playable position whose cell [(i, j)] is not given, placing a
    digit [d] that occurs in row [i], in column [j] or in the box with
    top-left corner [(i//3*3, j//3*3)] of the player board leaves the state
    as it is; placing a digit that occurs in none of the three stores [d] in
    cell [(i, j)] and changes nothing else of the board. *)
Theorem try_place_checks_row_col_box s y x i j num d :
  wf s →
  is_on_grid s y x = true →
  yx_to_ij s y x = (Some i, Some j) →
  ¬ given s i j →
  int num = Ok d → 1 <= d <= 9 →
  (conflict (board s) i j d → try_place s y x num = Ok s)
  ∧ (¬ conflict (board s) i j d →
       ∃ s', try_place s y x num = Ok s'
             ∧ board s' = set_cell (board s) i j d
             ∧ cell (board s') i j = Some d
             ∧ initial_board s' = initial_board s
             ∧ cursor s' = (y, x)).
Proof.
  intros Hwf Hg Hij Hng Hnum _.
  apply yx_to_ij_Some in Hij as (_ & -> & -> & Hi & Hj).
  apply (not_given_blank s _ _ Hwf Hi Hj) in Hng as Hblank.
  rewrite (try_place_wf s y x num Hwf Hg), (blank_at _ _ _ Hblank), Hnum.
  cbn [mbind result_bind]. split; intros Hc.
  - by rewrite bool_decide_eq_true_2.
  - rewrite bool_decide_eq_false_2 by done. eexists. split; [done |].
    cbn [board initial_board cursor]. split; [done |].
    split; [| done]. rewrite cell_set_cell by (apply Hwf || lia).
    by rewrite decide_True.
Qed.

Lemma try_place_checks_row_col_box_witness :
  (conflict (board game0) 0 2 5 → try_place game0 1 3 "5" = Ok game0)
  ∧ (¬ conflict (board game0) 0 2 4 →
       ∃ s', try_place game0 1 3 "4" = Ok s'
             ∧ board s' = set_cell (board game0) 0 2 4
             ∧ cell (board s') 0 2 = Some 4
             ∧ initial_board s' = initial_board game0
             ∧ cursor s' = (1, 3)).
Proof.
  assert (Hwf : wf game0).
  { split; (split; [reflexivity | repeat constructor]). }
  split.
  - apply (try_place_checks_row_col_box game0 1 3 0 2 "5" 5 Hwf);
      first [reflexivity | lia | by apply blank_not_given].
  - apply (try_place_checks_row_col_box game0 1 3 0 2 "4" 4 Hwf);
      first [reflexivity | lia | by apply blank_not_given].
Defined.

(** C6: at a playable position whose cell [(i, j)] is not given, [try_del]
    stores 0 in the cell whatever it held (the board is as before if it
    held 0 already) and raises nothing; at a given cell and at a position
    that is not playable it leaves the state as it is. *)
Theorem try_del_clears_cell s y x :
  wf s →
  (∀ i j,
     yx_to_ij s y x = (Some i, Some j) →
     (¬ given s i j →
        ∃ s', try_del s y x = Ok s'
              ∧ board s' = set_cell (board s) i j 0
              ∧ cell (board s') i j = Some 0
              ∧ (cell (board s) i j = Some 0 → board s' = board s))
     ∧ (given s i j → try_del s y x = Ok s))
  ∧ (is_on_grid s y x = false → try_del s y x = Ok s).
Proof.
  intros Hwf. split.
  - intros i j Hij.
    apply yx_to_ij_Some in Hij as (Hg & -> & -> & Hi & Hj).
    rewrite (try_del_wf s y x Hwf Hg). split.
    + intros Hng. apply (not_given_blank s _ _ Hwf Hi Hj) in Hng as Hblank.
      rewrite (blank_at _ _ _ Hblank).
      eexists. split; [done |]. cbn [board]. split; [done |]. split.
      * rewrite cell_set_cell by (apply Hwf || lia). by rewrite decide_True.
      * apply set_cell_same.
    + intros Hgiven. by rewrite (given_at _ _ _ Hgiven).
  - intros Hg. unfold try_del. by rewrite Hg.
Qed.

Lemma try_del_clears_cell_witness :
  (∃ s', try_del game1 1 3 = Ok s'
         ∧ board s' = set_cell (board game1) 0 2 0
         ∧ cell (board s') 0 2 = Some 0
         ∧ (cell (board game1) 0 2 = Some 0 → board s' = board game1))
  ∧ try_del game1 1 1 = Ok game1
  ∧ try_del game1 4 4 = Ok game1.
Proof.
  assert (Hwf : wf game1).
  { split; (split; [reflexivity | repeat constructor]). }
  split; [| split].
  - apply (proj1 (try_del_clears_cell game1 1 3 Hwf) 0 2); [reflexivity |].
    by apply blank_not_given.
  - apply (proj1 (try_del_clears_cell game1 1 1 Hwf) 0 0); [reflexivity |].
    exists 5. split; [reflexivity | discriminate].
  - apply (proj2 (try_del_clears_cell game1 4 4 Hwf)). reflexivity.
Defined.

(** C9: [try_place] does not ask for a blank cell: on a cell that is not
    given and holds [e], with [e] not 0, a digit that occurs nowhere in the
    row, the column and the box of the cell takes the place of [e]; and a
    digit that the cell holds already is rejected, since it occurs in the
    row of the cell. *)
Theorem try_place_overwrites s y x i j num d e :
  wf s →
  yx_to_ij s y x = (Some i, Some j) →
  ¬ given s i j →
  cell (board s) i j = Some e →
  int num = Ok d →
  (e ≠ 0 → ¬ conflict (board s) i j d →
     ∃ s', try_place s y x num = Ok s'
           ∧ board s' = set_cell (board s) i j d
           ∧ cell (board s') i j = Some d)
  ∧ (e = d → in_row (board s) i d ∧ try_place s y x num = Ok s).
Proof.
  intros Hwf Hij Hng He Hnum.
  apply yx_to_ij_Some in Hij as (Hg & -> & -> & Hi & Hj).
  apply (not_given_blank s _ _ Hwf Hi Hj) in Hng as Hblank.
  rewrite (try_place_wf s y x num Hwf Hg), (blank_at _ _ _ Hblank), Hnum.
  cbn [mbind result_bind]. split.
  - intros _ Hc. rewrite bool_decide_eq_false_2 by done.
    eexists. split; [done |]. cbn [board]. split; [done |].
    rewrite cell_set_cell by (apply Hwf || lia). by rewrite decide_True.
  - intros ->.
    assert (Hrow : in_row (board s) (to_index y) d).
    { apply Exists_exists. exists (to_index x).
      split; [by apply elem_of_range; lia | done]. }
    split; [done |]. rewrite bool_decide_eq_true_2; [done | by left].
Qed.

Lemma try_place_overwrites_witness :
  (∃ s', try_place game1 1 3 "1" = Ok s'
         ∧ board s' = set_cell (board game1) 0 2 1
         ∧ cell (board s') 0 2 = Some 1)
  ∧ in_row (board game1) 0 4 ∧ try_place game1 1 3 "4" = Ok game1.
Proof.
  assert (Hwf : wf game1).
  { split; (split; [reflexivity | repeat constructor]). }
  split.
  - apply (try_place_overwrites game1 1 3 0 2 "1" 1 4 Hwf);
      try reflexivity; [by apply blank_not_given | discriminate |].
    apply (proj1 (bool_decide_eq_false _)). vm_compute. reflexivity.
  - apply (try_place_overwrites game1 1 3 0 2 "4" 4 4 Hwf);
      first [reflexivity | by apply blank_not_given].
Defined.

(** ** Rejected calls *)

Lemma int_digit_string num :
  digit_string num → ∃ d, int num = Ok d ∧ 0 <= d <= 9.
Proof.
  intros (c & -> & v & Hv).
  destruct c as [[] [] [] [] [] [] [] []]; vm_compute in Hv;
    try discriminate Hv;
    eexists; (split; [vm_compute; reflexivity | lia]).
Qed.

(** On a well-formed game, for every integer position and each of the ten
    keys "0" to "9", [try_place] and [try_del] return without raising.  At a position
    that is not playable, where [yx_to_ij] gives [(None, None)] and
    [is_on_initial] would raise [TypeError], both leave the state as it is,
    since [is_on_grid] is tested first; so they do at a given cell, and so
    does [try_place] for a digit in conflict.  A call of [try_place] that
    changes the state has stored a digit without conflict in a cell that is
    not given. *)
Theorem rejected_calls_are_silent s y x num :
  wf s → digit_string num →
  (∃ s', try_place s y x num = Ok s')
  ∧ (∃ s', try_del s y x = Ok s')
  ∧ (is_on_grid s y x = false →
       yx_to_ij s y x = (None, None)
       ∧ is_on_initial s y x = Raise TypeError
       ∧ try_place s y x num = Ok s
       ∧ try_del s y x = Ok s)
  ∧ (∀ i j,
       yx_to_ij s y x = (Some i, Some j) →
       (given s i j → try_place s y x num = Ok s ∧ try_del s y x = Ok s)
       ∧ (∀ d, int num = Ok d → conflict (board s) i j d →
            try_place s y x num = Ok s)
       ∧ (∀ s', try_place s y x num = Ok s' → s' ≠ s →
            ∃ d, int num = Ok d ∧ ¬ given s i j
                 ∧ ¬ conflict (board s) i j d
                 ∧ board s' = set_cell (board s) i j d)).
Proof.
  intros Hwf Hnum. destruct (int_digit_string num Hnum) as (d & Hd & _).
  assert (Hoff : is_on_grid s y x = false →
                 try_place s y x num = Ok s ∧ try_del s y x = Ok s).
  { intros Hg. unfold try_place, try_del. by rewrite Hg. }
  destruct (is_on_grid s y x) eqn:Hg.
  - rewrite (try_place_wf s y x num Hwf Hg), (try_del_wf s y x Hwf Hg), Hd.
    cbn [mbind result_bind].
    split; [| split; [| split; [discriminate |]]].
    + destruct (_ =? 0); [| by eexists].
      destruct (bool_decide _); by eexists.
    + destruct (_ =? 0); by eexists.
    + intros i j Hij. apply yx_to_ij_Some in Hij as (_ & -> & -> & Hi & Hj).
      split; [| split].
      * intros Hgiven. by rewrite (given_at _ _ _ Hgiven).
      * intros d' [= <-] Hc. destruct (_ =? 0); [| done].
        by rewrite bool_decide_eq_true_2.
      * intros s' Hp Hne. exists d. split; [done |].
        destruct (at_ (initial_board s) (to_index y) (to_index x) =? 0)
          eqn:Hb; [| congruence].
        destruct (bool_decide (conflict _ _ _ _)) eqn:Hc; [congruence |].
        injection Hp as <-. cbn [board].
        apply bool_decide_eq_false in Hc. split; [| done].
        apply blank_not_given. destruct Hwf as [Hwi _].
        rewrite (cell_wf _ _ _ Hwi Hi Hj). apply Z.eqb_eq in Hb. by rewrite Hb.
  - destruct (Hoff eq_refl) as [Hp Hdel].
    split; [by eexists |]. split; [by eexists |]. split.
    + intros _. split; [by apply yx_to_ij_off_grid |].
      split; [by apply is_on_initial_off_grid | done].
    + intros i j Hij. apply yx_to_ij_Some in Hij as (Hg' & _). congruence.
Qed.

Lemma rejected_calls_are_silent_witness :
  try_place game0 4 4 "7" = Ok game0
  ∧ try_del game0 (-1) 40 = Ok game0
  ∧ try_place game0 1 1 "7" = Ok game0
  ∧ try_place game0 1 3 "5" = Ok game0.
Proof.
  assert (Hwf : wf game0).
  { split; (split; [reflexivity | repeat constructor]). }
  assert (H7 : digit_string "7").
  { eexists. split; [reflexivity |]. vm_compute. by eexists. }
  assert (H5 : digit_string "5").
  { eexists. split; [reflexivity |]. vm_compute. by eexists. }
  split; [| split; [| split]].
  - apply (rejected_calls_are_silent game0 4 4 "7" Hwf H7). reflexivity.
  - apply (rejected_calls_are_silent game0 (-1) 40 "7" Hwf H7). reflexivity.
  - apply (rejected_calls_are_silent game0 1 1 "7" Hwf H7 ) with (i := 0) (j := 0);
      [reflexivity |].
    exists 5. split; [reflexivity | discriminate].
  - destruct (rejected_calls_are_silent game0 1 3 "5" Hwf H5)
      as (_ & _ & _ & H).
    apply (H 0 2 eq_refl) with (d := 5); [reflexivity |].
    apply (proj1 (bool_decide_eq_true (conflict (board game0) 0 2 5))).
    vm_compute. reflexivity.
Defined.

(** C7: the call [try_place(1, 3, c)] for the key [c] that is the
    superscript 2 (code point 178) raises [ValueError] on the sample game,
    where (1, 3) is a playable cell that is not given.  The key is one
    character and a digit for [isdigit], so that it passes the test of
    [play], which then ends with the same exception: here [try_place]
    neither stores a digit nor returns without a trace. *)
Theorem try_place_raises_on_superscript_digit :
  let c := String "178"%char EmptyString in
  String.length c = 1%nat ∧ isdigit c = true ∧ digit_key c = true
  ∧ is_on_grid game0 1 3 = true
  ∧ yx_to_ij game0 1 3 = (Some 0, Some 2)
  ∧ cell (initial_board game0) 0 2 = Some 0
  ∧ try_place game0 1 3 c = Raise ValueError
  ∧ play game0 ["KEY_RIGHT"; "KEY_RIGHT"; c]%string = Raise ValueError.
Proof. vm_compute. repeat split. Qed.

(** ** Loops *)

Lemma for_test {A} (xs : list Z) (body : Z → result (flow A))
  (p : Z → bool) (r : A) :
  (∀ x, x ∈ xs → body x = Ok (if p x then Next else Return r)) →
  for_ xs body = Ok (if forallb p xs then Next else Return r).
Proof.
  induction xs as [| x xs IH]; intros H; [done |]. cbn [for_ forallb].
  rewrite (H x) by apply list_elem_of_here.
  destruct (p x); cbn [mbind result_bind andb]; [| done].
  apply IH. intros x' Hx'. apply H. by apply list_elem_of_further.
Qed.

Lemma for_acc_pair (xs : list Z) (f g : Z → Z)
  (body : Z → gset Z * gset Z → result (gset Z * gset Z)) (R C : gset Z) :
  (∀ x R C, x ∈ xs → body x (R, C) = Ok ({[f x]} ∪ R, {[g x]} ∪ C)) →
  for_acc xs body (R, C)
  = Ok (list_to_set (f <$> xs) ∪ R, list_to_set (g <$> xs) ∪ C).
Proof.
  revert R C. induction xs as [| x xs IH]; intros R C H; cbn [for_acc].
  - cbn [fmap list_fmap list_to_set foldr]. by rewrite !(left_id_L ∅ (∪)).
  - rewrite (H x) by apply list_elem_of_here. cbn [mbind result_bind].
    rewrite IH by (intros; apply H; by apply list_elem_of_further).
    rewrite !fmap_cons, !list_to_set_cons.
    by rewrite !(assoc_L (∪)), !(comm_L (∪) (list_to_set _) {[_]}).
Qed.

Lemma for_acc_union (xs : list Z) (F : Z → list Z)
  (body : Z → gset Z → result (gset Z)) (X : gset Z) :
  (∀ x X, x ∈ xs → body x X = Ok (list_to_set (F x) ∪ X)) →
  for_acc xs body X = Ok (list_to_set (xs ≫= F) ∪ X).
Proof.
  revert X. induction xs as [| x xs IH]; intros X H; cbn [for_acc].
  - cbn [mbind list_bind list_to_set foldr]. by rewrite (left_id_L ∅ (∪)).
  - rewrite (H x) by apply list_elem_of_here. cbn [mbind result_bind].
    rewrite IH by (intros; apply H; by apply list_elem_of_further).
    rewrite bind_cons, list_to_set_app_L.
    by rewrite !(assoc_L (∪)), (comm_L (∪) (list_to_set (xs ≫= F))).
Qed.

(** ** Sets of nine digits *)

Lemma size_list_to_set_le (l : list Z) :
  (size (list_to_set l : gset Z) <= length l)%nat.
Proof.
  induction l as [| x l IH]; [done |].
  rewrite list_to_set_cons, size_union_alt, size_singleton. simpl.
  assert (Hsub : (list_to_set l ∖ {[x]} : gset Z) ⊆ list_to_set l)
    by apply subseteq_difference_l, reflexivity.
  apply subseteq_size in Hsub. lia.
Qed.

Lemma size_list_to_set_NoDup (l : list Z) :
  size (list_to_set l : gset Z) = length l → NoDup l.
Proof.
  induction l as [| x l IH]; intros Hs; [constructor |].
  pose proof (size_list_to_set_le l) as Hle.
  rewrite list_to_set_cons in Hs. simpl in Hs.
  destruct (decide (x ∈ l)) as [Hin | Hnin].
  - rewrite (subseteq_union_1_L {[x]} (list_to_set l : gset Z)) in Hs; [lia |].
    apply singleton_subseteq_l. by apply elem_of_list_to_set.
  - rewrite size_union, size_singleton in Hs.
    + constructor; [done |]. apply IH. lia.
    + apply disjoint_singleton_l. by rewrite elem_of_list_to_set.
Qed.

Lemma unit_check_perm (vals : list Z) :
  length vals = 9%nat → Forall (fun v => 1 <= v <= 9) vals →
  unit_check (list_to_set vals) = true ↔ vals ≡ₚ seqZ 1 9.
Proof.
  intros Hl Hv. split.
  - intros Hc. apply andb_true_iff in Hc as [Hlen _].
    apply Z.eqb_eq in Hlen. unfold len in Hlen.
    apply submseteq_length_Permutation; [| by rewrite Hl].
    apply NoDup_submseteq.
    + apply size_list_to_set_NoDup. lia.
    + intros x Hx. rewrite Forall_forall in Hv. apply Hv in Hx.
      apply elem_of_seqZ. lia.
  - intros Hp. rewrite Hp. vm_compute. reflexivity.
Qed.

(** ** The completion check on a board of nine rows of nine cells *)

Lemma index_cell_bind {A} b i j (k : Z → result A) :
  wf_board b → 0 <= i <= 8 → 0 <= j <= 8 →
  (r ← index b i; v ← index r j; k v) = k (at_ b i j).
Proof.
  intros Hwf Hi Hj. pose proof (cell_wf b i j Hwf Hi Hj) as Hc.
  unfold cell in Hc. rewrite index_nonneg by lia.
  destruct (b !! Z.to_nat i) as [row |]; [| discriminate]. simpl in Hc.
  cbn [mbind result_bind]. rewrite index_nonneg by lia. by rewrite Hc.
Qed.

Lemma cells_in_at lo hi b i j :
  wf_board b → cells_in lo hi b → 0 <= i <= 8 → 0 <= j <= 8 →
  lo <= at_ b i j <= hi.
Proof.
  intros Hwf Hc Hi Hj. pose proof (cell_wf b i j Hwf Hi Hj) as E.
  unfold cell in E. destruct (b !! Z.to_nat i) as [row |] eqn:Er;
    [| discriminate]. simpl in E.
  eapply Forall_lookup_1 in Hc; [| exact Er].
  eapply Forall_lookup_1 in Hc; [| exact E]. done.
Qed.

(** Replaces the loop at the head of the goal by its outcome, for a loop
    whose body tests [p] and returns [False] when the test fails. *)
Ltac loop_outcome p :=
  match goal with
  | |- (for_ ?xs ?body ≫= _) = _ => rewrite (for_test xs body p false)
  end.

Lemma is_completed_wf s dc :
  wf_board (board s) → cells_in 0 9 (board s) →
  is_completed s dc =
  Ok (fullb (board s)
      && (if dc then linesb (board s) && boxesb (board s) else true)).
Proof.
  intros Hwf Hc. unfold is_completed. cbv zeta.
  loop_outcome (fun i => forallb (fun j => negb (at_ (board s) i j =? 0))
                                (range 0 9)).
  2:{ intros i Hi. apply elem_of_range in Hi. apply for_test.
      intros j Hj. apply elem_of_range in Hj.
      rewrite index_cell_bind by (done || lia).
      pose proof (cells_in_at 0 9 (board s) i j Hwf Hc) as Hv.
      destruct (Z.eqb_spec (at_ (board s) i j) 0); cbn [negb]; [done |].
      rewrite bool_decide_eq_true_2; [done |]. apply elem_of_range. lia. }
  fold (fullb (board s)).
  destruct (fullb (board s)); cbn [mbind result_bind andb]; [| done].
  destruct dc; [| done].
  loop_outcome (fun i => unit_check (list_to_set (row_values (board s) i))
                        && unit_check (list_to_set (col_values (board s) i))).
  2:{ intros i Hi. apply elem_of_range in Hi.
      rewrite (for_acc_pair _ (fun j => at_ (board s) i j)
                 (fun j => at_ (board s) j i)).
      2:{ intros j R C Hj. apply elem_of_range in Hj.
          rewrite index_cell_bind by (done || lia).
          rewrite index_cell_bind by (done || lia). done. }
      cbn [mbind result_bind]. rewrite !(right_id_L ∅ (∪)).
      fold (row_values (board s) i) (col_values (board s) i).
      unfold unit_check.
      destruct (len _ =? 9), (len _ =? 9), (sum _ =? 45), (sum _ =? 45);
        done. }
  fold (linesb (board s)).
  destruct (linesb (board s)); cbn [mbind result_bind andb]; [| done].
  loop_outcome (fun k => forallb (fun l =>
                  unit_check (list_to_set (box_values (board s) k l)))
                  (range_step 0 9 3)).
  2:{ intros k Hk. apply for_test. intros l Hl.
      change (range_step 0 9 3) with [0; 3; 6] in Hk, Hl.
      assert (Hk' : 0 <= k <= 6) by (set_unfold; lia).
      assert (Hl' : 0 <= l <= 6) by (set_unfold; lia).
      rewrite (for_acc_union _ (fun i => j ← range l (l + 3);
                                          [at_ (board s) i j])).
      2:{ intros i X Hi. apply elem_of_range in Hi.
          rewrite (for_acc_union _ (fun j => [at_ (board s) i j])); [done |].
          intros j Y Hj. apply elem_of_range in Hj.
          rewrite index_cell_bind by (done || lia).
          cbn [list_to_set foldr]. by rewrite (right_id_L ∅ (∪)). }
      cbn [mbind result_bind]. rewrite (right_id_L ∅ (∪)).
      fold (box_values (board s) k l). unfold unit_check.
      destruct (len _ =? 9), (sum _ =? 45); done. }
  fold (boxesb (board s)).
  by destruct (boxesb (board s)).
Qed.

Lemma forallb_Forall {A} (p : A → bool) (P : A → Prop) (xs : list A) :
  (∀ x, x ∈ xs → p x = true ↔ P x) →
  forallb p xs = true ↔ Forall P xs.
Proof.
  induction xs as [| x xs IH]; intros H; cbn [forallb].
  - split; [constructor | done].
  - rewrite andb_true_iff, Forall_cons, (H x) by apply list_elem_of_here.
    rewrite IH; [done |]. intros x' Hx'. apply H. by apply list_elem_of_further.
Qed.

Lemma fullb_full b : fullb b = true ↔ full b.
Proof.
  unfold fullb, full. apply forallb_Forall. intros i _.
  apply forallb_Forall. intros j _.
  rewrite negb_true_iff. apply Z.eqb_neq.
Qed.

Lemma full_digit b i j :
  wf_board b → cells_in 0 9 b → full b →
  0 <= i <= 8 → 0 <= j <= 8 → 1 <= at_ b i j <= 9.
Proof.
  intros Hwf Hc Hf Hi Hj. pose proof (cells_in_at 0 9 b i j Hwf Hc Hi Hj).
  unfold full in Hf. rewrite Forall_forall in Hf.
  assert (Hi' : i ∈ range 0 9) by (apply elem_of_range; lia).
  apply Hf in Hi'. rewrite Forall_forall in Hi'.
  assert (Hj' : j ∈ range 0 9) by (apply elem_of_range; lia).
  apply Hi' in Hj'. lia.
Qed.

Lemma linesb_valid b :
  wf_board b → cells_in 0 9 b → full b →
  linesb b = true ↔ rows_valid b ∧ cols_valid b.
Proof.
  intros Hwf Hc Hf. unfold linesb, rows_valid, cols_valid.
  rewrite <- Forall_and. apply forallb_Forall.
  intros i Hi. apply elem_of_range in Hi. rewrite andb_true_iff.
  rewrite !unit_check_perm; [done | ..].
  - unfold col_values. by rewrite length_fmap.
  - apply Forall_fmap, Forall_forall. intros j Hj. apply elem_of_range in Hj.
    apply full_digit; (done || lia).
  - unfold row_values. by rewrite length_fmap.
  - apply Forall_fmap, Forall_forall. intros j Hj. apply elem_of_range in Hj.
    apply full_digit; (done || lia).
Qed.

Lemma boxesb_valid b :
  wf_board b → cells_in 0 9 b → full b →
  boxesb b = true ↔ boxes_valid b.
Proof.
  intros Hwf Hc Hf. unfold boxesb, boxes_valid.
  change (range_step 0 9 3) with [0; 3; 6].
  apply forallb_Forall. intros k Hk. apply forallb_Forall. intros l Hl.
  assert (Hk' : 0 <= k <= 6) by (set_unfold; lia).
  assert (Hl' : 0 <= l <= 6) by (set_unfold; lia).
  apply unit_check_perm.
  - unfold box_values, range.
    replace (k + 3 - k) with 3 by lia. replace (l + 3 - l) with 3 by lia.
    reflexivity.
  - unfold box_values. apply Forall_bind, Forall_forall.
    intros i Hi. apply elem_of_range in Hi.
    apply Forall_bind, Forall_forall. intros j Hj. apply elem_of_range in Hj.
    apply Forall_singleton. apply full_digit; (done || lia).
Qed.

Lemma complete_iff b :
  wf_board b → cells_in 0 9 b →
  fullb b && (linesb b && boxesb b) = true ↔ complete b.
Proof.
  intros Hwf Hc. unfold complete. rewrite !andb_true_iff, fullb_full.
  split.
  - intros (Hf & Hl & Hb).
    apply (linesb_valid b Hwf Hc Hf) in Hl. apply (boxesb_valid b Hwf Hc Hf) in Hb.
    tauto.
  - intros (Hf & Hr & Hco & Hb). split; [done |]. split.
    + by apply (linesb_valid b Hwf Hc Hf).
    + by apply (boxesb_valid b Hwf Hc Hf).
Qed.

(** C3: on a board of nine rows of nine cells whose values lie in [0,9],
    [is_completed(deep_check=True)] returns [False] when a cell is 0, returns
    [False] when the board is full and some row, some column or some
    aligned box is not a permutation of 1, ..., 9, and returns [True]
    otherwise: it returns [True] exactly when the board is full and every
    row, column and box is a permutation of 1, ..., 9. *)
Theorem is_completed_deep_check s :
  wf_board (board s) → cells_in 0 9 (board s) →
  ∃ r, is_completed s true = Ok r
       ∧ (¬ full (board s) → r = false)
       ∧ (full (board s) →
          ¬ (rows_valid (board s) ∧ cols_valid (board s)
             ∧ boxes_valid (board s)) →
          r = false)
       ∧ (r = true ↔ complete (board s)).
Proof.
  intros Hwf Hc. rewrite (is_completed_wf s true Hwf Hc).
  eexists. split; [reflexivity |].
  pose proof (complete_iff (board s) Hwf Hc) as Hiff.
  split; [| split; [| exact Hiff]].
  - intros Hnf. apply not_true_is_false. intros Ht. apply Hiff in Ht.
    apply Hnf, Ht.
  - intros _ Hnv. apply not_true_is_false. intros Ht. apply Hiff in Ht.
    apply Hnv, Ht.
Qed.

Lemma is_completed_deep_check_witness :
  ∃ r, is_completed (start 24 80 solved) true = Ok r
       ∧ (¬ full solved → r = false)
       ∧ (full solved →
          ¬ (rows_valid solved ∧ cols_valid solved ∧ boxes_valid solved) →
          r = false)
       ∧ (r = true ↔ complete solved).
Proof.
  apply (is_completed_deep_check (start 24 80 solved)).
  - split; [reflexivity | repeat constructor].
  - apply (proj1 (bool_decide_eq_true (cells_in 0 9 solved))).
    vm_compute. reflexivity.
Defined.

(** *** The assertion, on a board of any shape *)

Lemma index_no_assert {A} (l : list A) i :
  index l i ≠ Raise AssertionError.
Proof.
  unfold index. destruct (_ && _); [| discriminate].
  destruct (l !! _); discriminate.
Qed.

Lemma index_elem {A} (l : list A) i a : index l i = Ok a → a ∈ l.
Proof.
  unfold index. destruct (_ && _); [| discriminate].
  destruct (l !! _) as [a' |] eqn:E; [| discriminate].
  intros [= <-]. by eapply list_elem_of_lookup_2.
Qed.

Lemma bind_no_assert {A B} (m : result A) (f : A → result B) :
  m ≠ Raise AssertionError →
  (∀ a, m = Ok a → f a ≠ Raise AssertionError) →
  m ≫= f ≠ Raise AssertionError.
Proof.
  intros Hm Hf. destruct m as [a | e]; cbn [mbind result_bind].
  - by apply Hf.
  - intros [= ->]. by apply Hm.
Qed.

Lemma for_no_assert {A} (xs : list Z) (body : Z → result (flow A)) :
  (∀ x, body x ≠ Raise AssertionError) →
  for_ xs body ≠ Raise AssertionError.
Proof.
  intros H. induction xs as [| x xs IH]; cbn [for_]; [discriminate |].
  apply bind_no_assert; [apply H |]. intros [| a] _; [done | discriminate].
Qed.

Lemma for_acc_no_assert {St} (xs : list Z) (body : Z → St → result St) st :
  (∀ x st, body x st ≠ Raise AssertionError) →
  for_acc xs body st ≠ Raise AssertionError.
Proof.
  intros H. revert st. induction xs as [| x xs IH]; intros st; cbn [for_acc];
    [discriminate |].
  apply bind_no_assert; [apply H |]. intros st' _. apply IH.
Qed.

Lemma is_completed_no_assert s deep_check :
  cells_in 0 9 (board s) → is_completed s deep_check ≠ Raise AssertionError.
Proof.
  intros Hc. unfold is_completed. cbv zeta. apply bind_no_assert.
  { apply for_no_assert. intros i. apply for_no_assert. intros j.
    apply bind_no_assert; [apply index_no_assert |]. intros r Er.
    apply bind_no_assert; [apply index_no_assert |]. intros v Ev.
    apply index_elem in Er, Ev. unfold cells_in in Hc.
    rewrite Forall_forall in Hc. apply Hc in Er.
    rewrite Forall_forall in Er. apply Er in Ev.
    destruct (Z.eqb_spec v 0); [discriminate |].
    rewrite bool_decide_eq_true_2; [discriminate |]. apply elem_of_range. lia. }
  intros [| b] _; [| discriminate]. destruct deep_check; [| discriminate].
  apply bind_no_assert.
  { apply for_no_assert. intros i. apply bind_no_assert.
    - apply for_acc_no_assert. intros j [row col].
      do 4 (apply bind_no_assert; [apply index_no_assert | intros ? _]).
      discriminate.
    - intros [row col] _. destruct (_ || _); discriminate. }
  intros [| b] _; [| discriminate]. apply bind_no_assert.
  { apply for_no_assert. intros k. apply for_no_assert. intros l.
    apply bind_no_assert.
    - apply for_acc_no_assert. intros i sq. apply for_acc_no_assert.
      intros j sq'.
      do 2 (apply bind_no_assert; [apply index_no_assert | intros ? _]).
      discriminate.
    - intros sq _. destruct (_ || _); discriminate. }
  intros [| b] _; discriminate.
Qed.

(** C10: when the values of the player board lie in [0,9] the assertion of
    [is_completed] does not fail, since a cell that reaches it is not 0 and
    so lies in [1,9]; and on nine rows of nine such cells [is_completed]
    returns a boolean for both values of [deep_check].  Without the deep
    check the result says whether the board is full. *)
Theorem is_completed_total s deep_check :
  cells_in 0 9 (board s) →
  is_completed s deep_check ≠ Raise AssertionError
  ∧ (wf_board (board s) →
       (∃ r, is_completed s deep_check = Ok r)
       ∧ (is_completed s false = Ok true ↔ full (board s))
       ∧ (∀ i j, 0 <= i <= 8 → 0 <= j <= 8 → at_ (board s) i j ≠ 0 →
            at_ (board s) i j ∈ range 1 10)).
Proof.
  intros Hc. split; [by apply is_completed_no_assert |].
  intros Hwf. rewrite !(is_completed_wf s _ Hwf Hc).
  split; [by eexists |]. split.
  - rewrite andb_true_r, <- fullb_full. split; [by intros [= ->] | by intros ->].
  - intros i j Hi Hj Hne.
    pose proof (cells_in_at 0 9 (board s) i j Hwf Hc Hi Hj).
    apply elem_of_range. lia.
Qed.

Lemma is_completed_total_witness :
  (∃ r, is_completed game0 false = Ok r)
  ∧ (∃ r, is_completed game0 true = Ok r).
Proof.
  assert (Hwf : wf_board (board game0)).
  { split; [reflexivity | repeat constructor]. }
  assert (Hc : cells_in 0 9 (board game0)).
  { apply (proj1 (bool_decide_eq_true (cells_in 0 9 puzzle))).
    vm_compute. reflexivity. }
  split.
  - apply (is_completed_total game0 false Hc), Hwf.
  - apply (is_completed_total game0 true Hc), Hwf.
Defined.

(** * Further properties *)

Example str_values :
  (str 0, str 7, str 12, str (-5)) = ("0", "7", "12", "-5")%string.
Proof. vm_compute. reflexivity. Qed.

(** ** Where [try_move] can put the cursor *)

Lemma is_on_grid_ext s s' y x :
  height s' = height s → width s' = width s →
  is_on_grid s' y x = is_on_grid s y x.
Proof. intros Hh Hw. unfold is_on_grid, is_safe_pos. by rewrite Hh, Hw. Qed.

Lemma try_move_cases s y x dir :
  try_move s y x dir = s
  ∨ ∃ y' x',
      try_move s y x dir = move s y' x'
      ∧ is_on_grid s y' x' = true
      ∧ ((y', x') = (y, x) ∨ ∃ d, dir = key d ∧ (y', x') = shift d y x).
Proof.
  unfold try_move. destruct (is_on_grid s y x) eqn:Hg.
  { right. exists y, x. by auto. }
  destruct (String.eqb_spec dir "KEY_UP") as [-> | _]; cbn [andb].
  { destruct (is_on_grid s (y - 1) x) eqn:Hg'; [| by left].
    right. exists (y - 1), x. split; [done |]. split; [done |].
    right. by exists Up. }
  destruct (String.eqb_spec dir "KEY_DOWN") as [-> | _]; cbn [andb].
  { destruct (is_on_grid s (y + 1) x) eqn:Hg'; [| by left].
    right. exists (y + 1), x. split; [done |]. split; [done |].
    right. by exists Down. }
  destruct (String.eqb_spec dir "KEY_LEFT") as [-> | _]; cbn [andb].
  { destruct (is_on_grid s y (x - 1)) eqn:Hg'; [| by left].
    right. exists y, (x - 1). split; [done |]. split; [done |].
    right. by exists Left. }
  destruct (String.eqb_spec dir "KEY_RIGHT") as [-> | _]; cbn [andb].
  { destruct (is_on_grid s y (x + 1)) eqn:Hg'; [| by left].
    right. exists y, (x + 1). split; [done |]. split; [done |].
    right. by exists Right. }
  by left.
Qed.

(** X1: [try_move] changes nothing but the cursor, and it either leaves the
    cursor where it is or puts it on a playable position: the requested
    one, or for an arrow key the next one in the direction of the key. *)
Theorem try_move_lands_on_grid s y x dir :
  try_move s y x dir = s
  ∨ ∃ y' x',
      try_move s y x dir = move s y' x'
      ∧ is_on_grid s y' x' = true
      ∧ ((y', x') = (y, x) ∨ ∃ d, dir = key d ∧ (y', x') = shift d y x).
Proof. apply try_move_cases. Qed.

(** ** Invariants of [play] *)

(** A property that every call made by the loop keeps holds when the loop
    stops; and the loop answers "win" only after [is_completed] has
    returned [True] on the state it stops in. *)
Lemma play_loop_inv (I : Sudoku → Prop) :
  (∀ s y x dir, I s → I (try_move s y x dir)) →
  (∀ s y x c s',
     I s → String.length c = 1%nat → isdigit c = true → c ≠ "0"%string →
     try_place s y x c = Ok s' → I s') →
  (∀ s y x s', I s → try_del s y x = Ok s' → I s') →
  ∀ keys s o s',
    I s → play_loop s keys = Ok (o, s') →
    I s'
    ∧ (o = None ∨ o = Some "quit"%string
       ∨ (o = Some "win"%string ∧ is_completed s' true = Ok true)).
Proof.
  intros Hmove Hplace Hdel keys.
  induction keys as [| c keys IH]; intros s o s' HI H; cbn [play_loop] in H.
  { injection H as <- <-. by auto. }
  destruct (cursor s) as [y x].
  destruct (String.eqb c KEY_ESC).
  { injection H as <- <-. by auto. }
  destruct (String.eqb c "KEY_UP"); [by eapply IH; [apply Hmove | done] |].
  destruct (String.eqb c "KEY_DOWN"); [by eapply IH; [apply Hmove | done] |].
  destruct (String.eqb c "KEY_LEFT"); [by eapply IH; [apply Hmove | done] |].
  destruct (String.eqb c "KEY_RIGHT"); [by eapply IH; [apply Hmove | done] |].
  destruct ((String.length c =? 1)%nat && isdigit c && negb (String.eqb c "0"))
    eqn:Hdigit.
  { apply andb_true_iff in Hdigit as [Hd Hz].
    apply andb_true_iff in Hd as [Hl Hd].
    apply Nat.eqb_eq in Hl. apply negb_true_iff, String.eqb_neq in Hz.
    destruct (try_place s y x c) as [s1 |] eqn:Hp;
      cbn [mbind result_bind] in H; [| discriminate].
    assert (HI1 : I s1) by (by eapply Hplace).
    destruct (is_completed s1 true) as [[] |] eqn:Hc;
      cbn [mbind result_bind] in H; [| | discriminate].
    - injection H as <- <-. by auto.
    - by eapply IH. }
  destruct (String.eqb c "KEY_BACKSPACE" || String.eqb c KEY_BS
            || String.eqb c KEY_DEL).
  { destruct (try_del s y x) as [s1 |] eqn:Hp;
      cbn [mbind result_bind] in H; [| discriminate].
    eapply IH; [| done]. by eapply Hdel. }
  by eapply IH.
Qed.

Lemma one_char_digit c :
  String.length c = 1%nat → isdigit c = true → superscript_key c = false →
  digit_string c.
Proof.
  destruct c as [| a [| a' c']]; [discriminate | | discriminate].
  intros _ Hd Hs. exists a. split; [done |].
  destruct a as [[] [] [] [] [] [] [] []]; vm_compute in Hd, Hs;
    try discriminate; vm_compute; by eexists.
Qed.

Lemma one_char_int c d :
  String.length c = 1%nat → int c = Ok d → 0 <= d <= 9.
Proof.
  destruct c as [| a [| a' c']]; [discriminate | | discriminate].
  intros _ Hd.
  destruct a as [[] [] [] [] [] [] [] []]; vm_compute in Hd;
    try discriminate; injection Hd as <-; lia.
Qed.

Lemma wf_board_insert b i j v row :
  wf_board b → b !! i = Some row →
  wf_board (<[i := <[j := v]> row]> b).
Proof.
  intros [Hl Hr] Er. split.
  - by rewrite length_insert.
  - apply Forall_insert; [done |]. rewrite length_insert.
    eapply Forall_lookup_1 in Hr; eauto.
Qed.

Lemma cells_in_insert lo hi b i j v row :
  cells_in lo hi b → b !! i = Some row → lo <= v <= hi →
  cells_in lo hi (<[i := <[j := v]> row]> b).
Proof.
  intros Hc Er Hv. unfold cells_in in *.
  apply Forall_insert; [done |]. apply Forall_insert; [| done].
  eapply Forall_lookup_1 in Hc; eauto.
Qed.

Lemma perform_shape s a s' :
  perform s a = Ok s' →
  height s' = height s ∧ width s' = width s
  ∧ (wf s → wf s')
  ∧ (cells_in 0 9 (board s) →
     match a with
     | Place _ _ num => String.length num = 1%nat
     | _ => True
     end →
     cells_in 0 9 (board s')).
Proof.
  intros Hp. destruct a as [y x dir | y x num | y x]; simpl in Hp.
  - injection Hp as <-.
    destruct (try_move_fields s y x dir) as (Hi & Hb & Hh & Hw).
    split; [done |]. split; [done |]. unfold wf. rewrite Hi, Hb. done.
  - apply try_place_inv in Hp
      as [-> | (_ & _ & d & row & Hd & Er & _ & ->)]; [done |].
    cbn [height width board initial_board]. split; [done |]. split; [done |].
    split.
    + intros [Hwi Hwb]. split; [done |]. by apply wf_board_insert.
    + intros Hc Hl. apply cells_in_insert; [done | done |].
      by eapply one_char_int.
  - apply try_del_inv in Hp as [-> | (_ & _ & row & Er & _ & ->)]; [done |].
    cbn [height width board initial_board]. split; [done |]. split; [done |].
    split.
    + intros [Hwi Hwb]. split; [done |]. by apply wf_board_insert.
    + intros Hc _. by apply cells_in_insert.
Qed.

(** X2: a call of [try_move], [try_place] or [try_del] that returns keeps
    the terminal size and keeps the player board at nine rows of nine
    cells; [try_move], [try_del] and [try_place] with a one-character key
    keep the values of the board in [0,9]. *)
Theorem perform_keeps_shape s a s' :
  perform s a = Ok s' →
  height s' = height s ∧ width s' = width s
  ∧ (wf s → wf s')
  ∧ (cells_in 0 9 (board s) →
     match a with
     | Place _ _ num => String.length num = 1%nat
     | _ => True
     end →
     cells_in 0 9 (board s')).
Proof. apply perform_shape. Qed.

Lemma perform_keeps_shape_witness :
  wf game1 ∧ cells_in 0 9 (board game1).
Proof.
  assert (Hp : perform game0 (Place 1 3 "4") = Ok game1)
    by (vm_compute; reflexivity).
  destruct (perform_keeps_shape game0 (Place 1 3 "4") game1 Hp)
    as (_ & _ & Hwf & Hc).
  split.
  - apply Hwf. split; (split; [reflexivity | repeat constructor]).
  - apply Hc; [| reflexivity].
    apply (proj1 (bool_decide_eq_true (cells_in 0 9 puzzle))).
    vm_compute. reflexivity.
Defined.

Lemma perform_cursor s a s' :
  perform s a = Ok s' →
  cursor s' = cursor s
  ∨ is_on_grid s' (cursor s').1 (cursor s').2 = true.
Proof.
  intros Hp. destruct a as [y x dir | y x num | y x]; simpl in Hp.
  - injection Hp as <-.
    destruct (try_move_cases s y x dir) as [-> | (y' & x' & -> & Hg & _)];
      [by left | by right].
  - apply try_place_inv in Hp as [-> | (Hg & _ & d & row & _ & _ & _ & ->)];
      [by left | by right].
  - apply try_del_inv in Hp as [-> | (Hg & _ & row & _ & _ & ->)];
      [by left | by right].
Qed.

Lemma reachable_cursor h w p s :
  reachable h w p s →
  cursor s = (1, 1) ∨ is_on_grid s (cursor s).1 (cursor s).2 = true.
Proof.
  induction 1 as [| s a s' Hr IH Hp]; [by left |].
  destruct (perform_cursor s a s' Hp) as [-> | Hg]; [| by right].
  destruct IH as [IH | IH]; [by left | right].
  destruct (perform_shape s a s' Hp) as (Hh & Hw & _).
  by rewrite (is_on_grid_ext s s' _ _ Hh Hw).
Qed.

(** X3: in every state of a game the cursor is where [play] put it at the
    start, at (1, 1), or on a playable position: no call leaves it on a
    separator line or outside the grid. *)
Theorem cursor_stays_playable h w puzzle s :
  reachable h w puzzle s →
  cursor s = (1, 1) ∨ is_on_grid s (cursor s).1 (cursor s).2 = true.
Proof. apply reachable_cursor. Qed.

Lemma cursor_stays_playable_witness :
  cursor game1 = (1, 1)
  ∨ is_on_grid game1 (cursor game1).1 (cursor game1).2 = true.
Proof.
  apply (cursor_stays_playable 24 80 puzzle game1).
  apply (reach_step 24 80 puzzle game0 (Place 1 3 "4") game1).
  - apply reach_start.
  - vm_compute. reflexivity.
Defined.

Lemma play_loop_reachable h w p keys s o s' :
  reachable h w p s → play_loop s keys = Ok (o, s') → reachable h w p s'.
Proof.
  intros Hr H.
  apply (play_loop_inv (reachable h w p)) in H as [H _]; [done | .. | done].
  - intros s0 y x dir H0. by apply (reach_step h w p s0 (Move y x dir)).
  - intros s0 y x c s1 H0 _ _ _ Hp.
    by apply (reach_step h w p s0 (Place y x c)).
  - intros s0 y x s1 H0 Hp. by apply (reach_step h w p s0 (Del y x)).
Qed.

(** X4: whatever keys arrive, a state in which [play] stops or waits for
    the next key is one that calls of [try_move], [try_place] and
    [try_del] reach from the start of the game, so that what holds of those
    states holds while playing; and [play] answers nothing, "quit" or
    "win". *)
Theorem play_reaches_game_states h w puzzle keys o s' :
  play (start h w puzzle) keys = Ok (o, s') →
  reachable h w puzzle s'
  ∧ (o = None ∨ o = Some "quit"%string ∨ o = Some "win"%string).
Proof.
  unfold play. change (move (start h w puzzle) 1 1) with (start h w puzzle).
  intros H. split.
  - eapply play_loop_reachable; [apply reach_start | exact H].
  - apply (play_loop_inv (fun _ => True)) in H as [_ H]; [| done ..].
    destruct H as [? | [? | [? _]]]; by auto.
Qed.

Lemma play_reaches_game_states_witness :
  reachable 24 80 puzzle game1.
Proof.
  apply (play_reaches_game_states 24 80 puzzle
           ["KEY_RIGHT"; "KEY_RIGHT"; "x"; "4"]%string None game1).
  vm_compute. reflexivity.
Defined.

(** ** Boards without a repeated digit *)

Lemma elem_of_cells i j : (i, j) ∈ cells ↔ 0 <= i <= 8 ∧ 0 <= j <= 8.
Proof.
  unfold cells. rewrite list_elem_of_bind. split.
  - intros (i' & Hj & Hi). apply list_elem_of_bind in Hj as (j' & Hp & Hj).
    apply list_elem_of_singleton in Hp as [= -> ->].
    apply elem_of_range in Hi, Hj. lia.
  - intros [Hi Hj]. exists i. split; [| apply elem_of_range; lia].
    apply list_elem_of_bind. exists j.
    split; [by apply list_elem_of_singleton | apply elem_of_range; lia].
Qed.

Lemma consistent_spec b :
  consistent b ↔
  ∀ i j i' j',
    0 <= i <= 8 → 0 <= j <= 8 → 0 <= i' <= 8 → 0 <= j' <= 8 →
    peers (i, j) (i', j') → at_ b i j ≠ 0 → at_ b i j ≠ at_ b i' j'.
Proof.
  unfold consistent. rewrite Forall_forall. split.
  - intros H i j i' j' Hi Hj Hi' Hj'.
    assert (Hp : (i, j) ∈ cells) by (by apply elem_of_cells).
    apply H in Hp. rewrite Forall_forall in Hp.
    apply (Hp (i', j')). by apply elem_of_cells.
  - intros H [i j] Hp. apply Forall_forall. intros [i' j'] Hq.
    apply elem_of_cells in Hp as [Hi Hj], Hq as [Hi' Hj']. by apply H.
Qed.

Lemma at_set_cell b i0 j0 v i j :
  wf_board b → 0 <= i0 <= 8 → 0 <= j0 <= 8 → 0 <= i → 0 <= j →
  at_ (set_cell b i0 j0 v) i j =
  if decide (i = i0 ∧ j = j0) then v else at_ b i j.
Proof.
  intros Hwf Hi0 Hj0 Hi Hj. unfold at_.
  rewrite cell_set_cell by done. by destruct (decide _).
Qed.

(** A digit without conflict at a cell differs from the value of every
    cell in the row, the column and the box of the cell. *)
Lemma no_conflict_peer b i0 j0 d i j :
  wf_board b → 0 <= i0 <= 8 → 0 <= j0 <= 8 → 0 <= i <= 8 → 0 <= j <= 8 →
  ¬ conflict b i0 j0 d →
  i = i0 ∨ j = j0 ∨ (i / 3 = i0 / 3 ∧ j / 3 = j0 / 3) →
  at_ b i j ≠ d.
Proof.
  intros Hwf Hi0 Hj0 Hi Hj Hnc Hpeer Heq. apply Hnc.
  pose proof (cell_wf b i j Hwf Hi Hj) as Hc. rewrite Heq in Hc.
  unfold conflict, in_row, in_col, in_box.
  destruct Hpeer as [-> | [-> | [Hbi Hbj]]].
  - left. apply Exists_exists. exists j.
    split; [apply elem_of_range; lia | done].
  - right. left. apply Exists_exists. exists i.
    split; [apply elem_of_range; lia | done].
  - right. right. apply Exists_exists. exists i. split.
    { apply elem_of_range. rewrite <- Hbi.
      clear -Hi. Z.to_euclidean_division_equations. lia. }
    apply Exists_exists. exists j. split; [| done].
    apply elem_of_range. rewrite <- Hbj.
    clear -Hj. Z.to_euclidean_division_equations. lia.
Qed.

Lemma consistent_set_cell b i0 j0 d :
  wf_board b → 0 <= i0 <= 8 → 0 <= j0 <= 8 →
  consistent b → d = 0 ∨ ¬ conflict b i0 j0 d →
  consistent (set_cell b i0 j0 d).
Proof.
  intros Hwf Hi0 Hj0 Hcons Hd. apply consistent_spec.
  rewrite consistent_spec in Hcons.
  intros i j i' j' Hi Hj Hi' Hj' [Hne Hpeer].
  rewrite !at_set_cell by (done || lia).
  destruct (decide (i = i0 ∧ j = j0)) as [[-> ->] | Hp];
    destruct (decide (i' = i0 ∧ j' = j0)) as [[-> ->] | Hq]; simpl in *.
  - done.
  - intros Hd0. destruct Hd as [-> | Hnc]; [done |].
    intros Heq. symmetry in Heq. revert Heq.
    apply (no_conflict_peer b i0 j0 d i' j'); try done.
    destruct Hpeer as [-> | [-> | [-> ->]]]; by auto.
  - intros Hv. destruct Hd as [-> | Hnc]; [done |].
    by apply (no_conflict_peer b i0 j0 d i j).
  - by apply Hcons.
Qed.

Lemma try_place_wf_inv s y x num s' :
  wf s → try_place s y x num = Ok s' →
  s' = s
  ∨ (is_on_grid s y x = true
     ∧ ∃ d, int num = Ok d
            ∧ ¬ conflict (board s) (to_index y) (to_index x) d
            ∧ s' = mkSudoku (height s) (width s) (initial_board s)
                     (set_cell (board s) (to_index y) (to_index x) d) (y, x)).
Proof.
  intros Hwf H. destruct (is_on_grid s y x) eqn:Hg.
  - rewrite (try_place_wf s y x num Hwf Hg) in H.
    destruct (_ =? 0); [| left; congruence].
    destruct (int num) as [d |]; cbn [mbind result_bind] in H;
      [| discriminate].
    destruct (bool_decide (conflict _ _ _ _)) eqn:Hc; [left; congruence |].
    apply bool_decide_eq_false in Hc. injection H as <-.
    right. split; [done |]. by exists d.
  - unfold try_place in H. rewrite Hg in H. left. congruence.
Qed.

Lemma try_del_wf_inv s y x s' :
  wf s → try_del s y x = Ok s' →
  s' = s
  ∨ (is_on_grid s y x = true
     ∧ s' = mkSudoku (height s) (width s) (initial_board s)
              (set_cell (board s) (to_index y) (to_index x) 0) (y, x)).
Proof.
  intros Hwf H. destruct (is_on_grid s y x) eqn:Hg.
  - rewrite (try_del_wf s y x Hwf Hg) in H.
    destruct (_ =? 0); [| left; congruence]. injection H as <-. by right.
  - unfold try_del in H. rewrite Hg in H. left. congruence.
Qed.

Lemma perform_consistent s a s' :
  wf s → consistent (board s) → perform s a = Ok s' →
  consistent (board s').
Proof.
  intros Hwf Hc Hp. destruct a as [y x dir | y x num | y x]; simpl in Hp.
  - injection Hp as <-. destruct (try_move_fields s y x dir) as (_ & -> & _).
    done.
  - apply (try_place_wf_inv s y x num s' Hwf) in Hp
      as [-> | (Hg & d & _ & Hnc & ->)]; [done |].
    destruct (to_index_bounds s y x Hg) as [Hi Hj]. cbn [board].
    apply consistent_set_cell; [apply Hwf | done | done | done | by right].
  - apply (try_del_wf_inv s y x s' Hwf) in Hp as [-> | (Hg & ->)]; [done |].
    destruct (to_index_bounds s y x Hg) as [Hi Hj]. cbn [board].
    apply consistent_set_cell; [apply Hwf | done | done | done | by left].
Qed.

Lemma reachable_consistent h w p s :
  wf_board p → consistent p → reachable h w p s →
  wf s ∧ consistent (board s).
Proof.
  intros Hwf Hc. induction 1 as [| s a s' Hr [IHw IHc] Hp].
  - split; [by split | done].
  - split.
    + by apply (perform_shape s a s' Hp).
    + by apply (perform_consistent s a s').
Qed.

(** X5: if no digit occurs twice in a row, a column or a box of the
    puzzle, then none does in any state of the game: [try_place] never
    stores a digit next to an equal one, whatever its arguments. *)
Theorem no_digit_is_ever_repeated h w puzzle s :
  wf_board puzzle → consistent puzzle → reachable h w puzzle s →
  consistent (board s).
Proof. intros Hwf Hc Hr. by apply (reachable_consistent h w puzzle s). Qed.

Lemma no_digit_is_ever_repeated_witness : consistent (board game1).
Proof.
  apply (no_digit_is_ever_repeated 24 80 puzzle game1).
  - split; [reflexivity | repeat constructor].
  - apply (proj1 (bool_decide_eq_true (consistent puzzle))).
    vm_compute. reflexivity.
  - apply (reach_step 24 80 puzzle game0 (Place 1 3 "4") game1).
    + apply reach_start.
    + vm_compute. reflexivity.
Defined.

Lemma nodup_digits_perm (vals : list Z) :
  length vals = 9%nat → Forall (fun v => 1 <= v <= 9) vals → NoDup vals →
  vals ≡ₚ seqZ 1 9.
Proof.
  intros Hl Hv Hn. apply submseteq_length_Permutation; [| by rewrite Hl].
  apply NoDup_submseteq; [done |].
  intros v Hin. rewrite Forall_forall in Hv. apply Hv in Hin.
  apply elem_of_seqZ. lia.
Qed.

Lemma bind_pairs {A} (f : Z → Z → A) (xs ys : list Z) :
  (i ← xs; j ← ys; [f i j])
  = (fun p : Z * Z => f p.1 p.2) <$> (i ← xs; j ← ys; [(i, j)]).
Proof.
  induction xs as [| i xs IH]; [done |].
  rewrite !bind_cons, fmap_app, IH. f_equal.
  clear IH. induction ys as [| j ys IH]; [done |].
  rewrite !bind_cons, fmap_app, IH. done.
Qed.

Lemma elem_of_pairs (xs ys : list Z) i j :
  (i, j) ∈ (i ← xs; j ← ys; [(i, j)]) ↔ i ∈ xs ∧ j ∈ ys.
Proof.
  rewrite list_elem_of_bind. split.
  - intros (i' & Hj & Hi). apply list_elem_of_bind in Hj as (j' & Hp & Hj).
    by apply list_elem_of_singleton in Hp as [= -> ->].
  - intros [Hi Hj]. exists i. split; [| done].
    apply list_elem_of_bind. exists j. split; [| done].
    by apply list_elem_of_singleton.
Qed.

Lemma NoDup_pairs (xs ys : list Z) :
  NoDup xs → NoDup ys → NoDup (i ← xs; j ← ys; [(i, j)]).
Proof.
  intros Hx Hy. apply NoDup_bind; [| | done].
  - intros i1 i2 [i j] _ _ H1 H2.
    apply list_elem_of_bind in H1 as (j1 & Hp1 & _).
    apply list_elem_of_bind in H2 as (j2 & Hp2 & _).
    apply list_elem_of_singleton in Hp1, Hp2. congruence.
  - intros i _. apply NoDup_bind; [| | done].
    + intros j1 j2 p _ _ H1 H2.
      apply list_elem_of_singleton in H1, H2. congruence.
    + intros j _. apply NoDup_singleton.
Qed.

(** A full board without a repeated digit is a solution. *)
Lemma consistent_full_complete b :
  wf_board b → cells_in 0 9 b → consistent b → full b → complete b.
Proof.
  intros Hwf Hc Hcons Hf. rewrite consistent_spec in Hcons.
  assert (Hinj : ∀ i j i' j',
            0 <= i <= 8 → 0 <= j <= 8 → 0 <= i' <= 8 → 0 <= j' <= 8 →
            i = i' ∨ j = j' ∨ (i / 3 = i' / 3 ∧ j / 3 = j' / 3) →
            at_ b i j = at_ b i' j' → (i, j) = (i', j')).
  { intros i j i' j' Hi Hj Hi' Hj' Hpeer Heq.
    destruct (decide ((i, j) = (i', j'))) as [| Hne]; [done |]. exfalso.
    apply (Hcons i j i' j'); try done.
    pose proof (full_digit b i j Hwf Hc Hf Hi Hj). lia. }
  split; [done |]. split; [| split].
  - apply Forall_forall. intros i Hi. apply elem_of_range in Hi.
    apply nodup_digits_perm.
    + unfold row_values. by rewrite length_fmap.
    + apply Forall_fmap, Forall_forall. intros j Hj.
      apply elem_of_range in Hj. apply full_digit; (done || lia).
    + apply NoDup_fmap_2_strong; [| apply NoDup_seqZ].
      intros j j' Hj Hj' Heq. apply elem_of_range in Hj, Hj'.
      apply (Hinj i j i j') in Heq; [congruence | lia .. | by left].
  - apply Forall_forall. intros j Hj. apply elem_of_range in Hj.
    apply nodup_digits_perm.
    + unfold col_values. by rewrite length_fmap.
    + apply Forall_fmap, Forall_forall. intros i Hi.
      apply elem_of_range in Hi. apply full_digit; (done || lia).
    + apply NoDup_fmap_2_strong; [| apply NoDup_seqZ].
      intros i i' Hi Hi' Heq. apply elem_of_range in Hi, Hi'.
      apply (Hinj i j i' j) in Heq; [congruence | lia .. | by right; left].
  - apply Forall_forall. intros k Hk. apply Forall_forall. intros l Hl.
    assert (Hk' : k = 0 ∨ k = 3 ∨ k = 6) by (set_unfold; tauto).
    assert (Hl' : l = 0 ∨ l = 3 ∨ l = 6) by (set_unfold; tauto).
    unfold box_values. rewrite bind_pairs. apply nodup_digits_perm.
    + rewrite length_fmap. unfold range.
      replace (k + 3 - k) with 3 by lia. replace (l + 3 - l) with 3 by lia.
      reflexivity.
    + apply Forall_fmap, Forall_forall. intros [i j] Hp.
      apply elem_of_pairs in Hp as [Hi Hj]. apply elem_of_range in Hi, Hj.
      apply (full_digit b i j); (done || lia).
    + apply NoDup_fmap_2_strong; [| apply NoDup_pairs; apply NoDup_seqZ].
      intros [i j] [i' j'] Hp Hq Heq.
      apply elem_of_pairs in Hp as [Hi Hj], Hq as [Hi' Hj'].
      apply elem_of_range in Hi, Hj, Hi', Hj'. simpl in Heq.
      apply (Hinj i j i' j') in Heq; [done | lia .. |].
      right. right. clear -Hk' Hl' Hi Hj Hi' Hj'.
      Z.to_euclidean_division_equations. lia.
Qed.

(** X6: on a board of nine rows of nine cells with values in [0,9] in which
    no digit occurs twice in a row, a column or a box, the check without
    [deep_check] gives the answer of the deep check: such a board is solved
    as soon as it is full. *)
Theorem shallow_check_suffices s :
  wf_board (board s) → cells_in 0 9 (board s) → consistent (board s) →
  is_completed s false = is_completed s true
  ∧ (full (board s) → complete (board s)).
Proof.
  intros Hwf Hc Hcons.
  pose proof (consistent_full_complete (board s) Hwf Hc Hcons) as Hfc.
  split; [| done]. rewrite !(is_completed_wf s _ Hwf Hc).
  destruct (fullb (board s)) eqn:Hf; [| done].
  apply fullb_full, Hfc, (complete_iff (board s) Hwf Hc) in Hf.
  apply andb_true_iff in Hf as [_ ->]. done.
Qed.

Lemma shallow_check_suffices_witness :
  is_completed game1 false = is_completed game1 true
  ∧ (full (board game1) → complete (board game1)).
Proof.
  apply (shallow_check_suffices game1).
  - split; [reflexivity | repeat constructor].
  - apply (proj1 (bool_decide_eq_true (cells_in 0 9 (board game1)))).
    vm_compute. reflexivity.
  - apply (proj1 (bool_decide_eq_true (consistent (board game1)))).
    vm_compute. reflexivity.
Defined.

(** ** What [play] answers *)

Lemma valid_state_inv keys s o s' :
  wf s → cells_in 0 9 (board s) → play_loop s keys = Ok (o, s') →
  (wf s' ∧ cells_in 0 9 (board s'))
  ∧ (o = None ∨ o = Some "quit"%string
     ∨ (o = Some "win"%string ∧ is_completed s' true = Ok true)).
Proof.
  intros Hwf Hc H.
  apply (play_loop_inv (fun s => wf s ∧ cells_in 0 9 (board s))) in H;
    [done | .. | done].
  - intros s0 y x dir [H1 H2].
    destruct (perform_shape s0 (Move y x dir) _ eq_refl) as (_ & _ & Hw & Hv).
    by auto.
  - intros s0 y x c s1 [H1 H2] Hl _ _ Hp.
    destruct (perform_shape s0 (Place y x c) s1 Hp) as (_ & _ & Hw & Hv).
    by auto.
  - intros s0 y x s1 [H1 H2] Hp.
    destruct (perform_shape s0 (Del y x) s1 Hp) as (_ & _ & Hw & Hv).
    by auto.
Qed.

(** X7: on a game of nine rows of nine cells with values in [0,9], [play]
    answers "win" only in a state whose board is full with every row,
    column and box a permutation of 1, ..., 9; and the board it stops on
    still has nine rows of nine cells with values in [0,9]. *)
Theorem play_wins_only_when_solved s keys o s' :
  wf s → cells_in 0 9 (board s) → play s keys = Ok (o, s') →
  wf s' ∧ cells_in 0 9 (board s')
  ∧ (o = Some "win"%string → complete (board s')).
Proof.
  intros Hwf Hc H. unfold play in H.
  apply valid_state_inv in H as [[Hwf' Hc'] Ho]; [| done | done].
  split; [done |]. split; [done |]. intros ->.
  destruct Ho as [? | [? | [_ Hw]]]; [done | done |].
  destruct Hwf' as [_ Hwb]. rewrite (is_completed_wf s' true Hwb Hc') in Hw.
  injection Hw as Hw. by apply (complete_iff (board s') Hwb Hc').
Qed.

Lemma play_wins_only_when_solved_witness :
  complete solved.
Proof.
  assert (Hwf : wf (start 24 80 solved)).
  { split; (split; [reflexivity | repeat constructor]). }
  assert (Hc : cells_in 0 9 (board (start 24 80 solved))).
  { apply (proj1 (bool_decide_eq_true (cells_in 0 9 solved))).
    vm_compute. reflexivity. }
  assert (Hp : play (start 24 80 solved) ["KEY_DOWN"; "7"]%string
               = Ok (Some "win"%string, move (start 24 80 solved) 2 1)).
  { vm_compute. reflexivity. }
  apply (play_wins_only_when_solved _ _ _ _ Hwf Hc Hp). reflexivity.
Defined.

Lemma try_place_total s y x num d :
  wf s → int num = Ok d → ∃ s', try_place s y x num = Ok s'.
Proof.
  intros Hwf Hd. destruct (is_on_grid s y x) eqn:Hg.
  - rewrite (try_place_wf s y x num Hwf Hg), Hd. cbn [mbind result_bind].
    destruct (_ =? 0); [| by eexists]. destruct (bool_decide _); by eexists.
  - unfold try_place. rewrite Hg. by eexists.
Qed.

Lemma try_del_total s y x : wf s → ∃ s', try_del s y x = Ok s'.
Proof.
  intros Hwf. destruct (is_on_grid s y x) eqn:Hg.
  - rewrite (try_del_wf s y x Hwf Hg). destruct (_ =? 0); by eexists.
  - unfold try_del. rewrite Hg. by eexists.
Qed.

Lemma play_loop_total keys s :
  wf s → cells_in 0 9 (board s) →
  Forall (fun c => superscript_key c = false) keys →
  ∃ o s', play_loop s keys = Ok (o, s').
Proof.
  revert s. induction keys as [| c keys IH]; intros s Hwf Hc Hk;
    cbn [play_loop].
  { by eexists _, _. }
  apply Forall_cons in Hk as [Hc0 Hk].
  destruct (cursor s) as [y x].
  destruct (String.eqb c KEY_ESC); [by eexists _, _ |].
  assert (Hmove : ∀ y' x', ∃ o s',
            play_loop (try_move s y' x' c) keys = Ok (o, s')).
  { intros y' x'.
    destruct (perform_shape s (Move y' x' c) _ eq_refl) as (_ & _ & Hw & Hv).
    apply IH; by auto. }
  destruct (String.eqb c "KEY_UP"); [apply Hmove |].
  destruct (String.eqb c "KEY_DOWN"); [apply Hmove |].
  destruct (String.eqb c "KEY_LEFT"); [apply Hmove |].
  destruct (String.eqb c "KEY_RIGHT"); [apply Hmove |].
  destruct ((String.length c =? 1)%nat && isdigit c && negb (String.eqb c "0"))
    eqn:Hdigit.
  { apply andb_true_iff in Hdigit as [Hd _].
    apply andb_true_iff in Hd as [Hl Hd]. apply Nat.eqb_eq in Hl.
    destruct (int_digit_string c (one_char_digit c Hl Hd Hc0)) as (d & Hi & _).
    destruct (try_place_total s y x c d Hwf Hi) as [s1 Hp]. rewrite Hp.
    cbn [mbind result_bind].
    destruct (perform_shape s (Place y x c) s1 Hp) as (_ & _ & Hw & Hv).
    specialize (Hw Hwf). specialize (Hv Hc Hl).
    rewrite (is_completed_wf s1 true (proj2 Hw) Hv). cbn [mbind result_bind].
    destruct (_ && _); [by eexists _, _ | by apply IH]. }
  destruct (String.eqb c "KEY_BACKSPACE" || String.eqb c KEY_BS
            || String.eqb c KEY_DEL).
  { destruct (try_del_total s y x Hwf) as [s1 Hp]. rewrite Hp.
    cbn [mbind result_bind].
    destruct (perform_shape s (Del y x) s1 Hp) as (_ & _ & Hw & Hv).
    apply IH; by auto. }
  by apply IH.
Qed.

(** X8: on a game of nine rows of nine cells with values in [0,9], [play]
    raises nothing, whatever keys arrive, as long as none of them is one of
    the superscript digits: it answers "quit" or "win", or waits for the
    next key. *)
Theorem play_never_raises s keys :
  wf s → cells_in 0 9 (board s) →
  Forall (fun c => superscript_key c = false) keys →
  ∃ o s', play s keys = Ok (o, s').
Proof. intros Hwf Hc Hk. unfold play. by apply play_loop_total. Qed.

Lemma play_never_raises_witness :
  ∃ o s', play game0 ["KEY_F(1)"; "0"; "KEY_BACKSPACE"; "9"; "q"]%string
          = Ok (o, s').
Proof.
  apply (play_never_raises game0).
  - split; (split; [reflexivity | repeat constructor]).
  - apply (proj1 (bool_decide_eq_true (cells_in 0 9 puzzle))).
    vm_compute. reflexivity.
  - repeat constructor.
Defined.

(** The step of the loop on a key that passes the test for digits. *)
Lemma play_loop_digit s c keys :
  digit_key c = true →
  play_loop s (c :: keys) =
  let '(y, x) := cursor s in
  s' ← try_place s y x c;
  is_completed s' true ≫= fun won : bool =>
  if won then Ok (Some "win"%string, s') else play_loop s' keys.
Proof.
  intros Hd. destruct c as [| a [| a' c']]; [discriminate | | discriminate].
  destruct a as [[] [] [] [] [] [] [] []]; vm_compute in Hd;
    try discriminate Hd; reflexivity.
Qed.

(** X9: a superscript digit is a digit for [isdigit] and not a number for
    [int]: when such a key arrives while the cursor is on a playable cell
    that is not given, [play] ends with [ValueError]. *)
Theorem superscript_digit_raises s y x c keys :
  wf s → cursor s = (y, x) → is_on_grid s y x = true →
  ¬ given s (to_index y) (to_index x) →
  superscript_key c = true →
  digit_key c = true ∧ play_loop s (c :: keys) = Raise ValueError.
Proof.
  intros Hwf Hcur Hg Hng Hc.
  destruct (to_index_bounds s y x Hg) as [Hi Hj].
  apply (not_given_blank s _ _ Hwf Hi Hj), blank_at in Hng.
  assert (Hp : int c = Raise ValueError →
               try_place s y x c = Raise ValueError).
  { intros Hint. by rewrite (try_place_wf s y x c Hwf Hg), Hng, Hint. }
  assert (Hd : digit_key c = true ∧ int c = Raise ValueError).
  { unfold superscript_key in Hc.
    apply orb_true_iff in Hc as [Hc | Hc];
      [apply orb_true_iff in Hc as [Hc | Hc] |];
      apply String.eqb_eq in Hc; subst c; split; reflexivity. }
  destruct Hd as [Hd Hint]. split; [done |].
  rewrite (play_loop_digit s c keys Hd), Hcur, (Hp Hint). reflexivity.
Qed.

Lemma superscript_digit_raises_witness :
  play game0 ["KEY_RIGHT"; "KEY_RIGHT"; String "178"%char EmptyString]%string
  = Raise ValueError.
Proof.
  assert (Hwf : wf (move game0 1 3)).
  { split; (split; [reflexivity | repeat constructor]). }
  apply (superscript_digit_raises (move game0 1 3) 1 3
           (String "178"%char EmptyString) [] Hwf); try reflexivity.
  by apply blank_not_given.
Defined.

Lemma digit_key_int c :
  digit_key c = true → superscript_key c = false →
  ∃ d, int c = Ok d ∧ 1 <= d <= 9.
Proof.
  intros Hd Hs. destruct c as [| a [| a' c']]; [discriminate | | discriminate].
  destruct a as [[] [] [] [] [] [] [] []]; vm_compute in Hd, Hs;
    try discriminate; eexists; (split; [vm_compute; reflexivity | lia]).
Qed.

Lemma play_loop_no_digit keys s o s' :
  Forall (fun c => digit_key c = false) keys →
  play_loop s keys = Ok (o, s') → o ≠ Some "win"%string.
Proof.
  revert s. induction keys as [| c keys IH]; intros s Hk H;
    cbn [play_loop] in H.
  { by injection H as <- <-. }
  apply Forall_cons in Hk as [Hc Hk]. fold (digit_key c) in H.
  rewrite Hc in H. destruct (cursor s) as [y x].
  destruct (String.eqb c KEY_ESC); [by injection H as <- <- |].
  destruct (String.eqb c "KEY_UP"); [by eapply IH |].
  destruct (String.eqb c "KEY_DOWN"); [by eapply IH |].
  destruct (String.eqb c "KEY_LEFT"); [by eapply IH |].
  destruct (String.eqb c "KEY_RIGHT"); [by eapply IH |].
  destruct (String.eqb c "KEY_BACKSPACE" || String.eqb c KEY_BS
            || String.eqb c KEY_DEL); [| by eapply IH].
  destruct (try_del s y x) as [s1 |]; cbn [mbind result_bind] in H;
    [by eapply IH | discriminate].
Qed.

Lemma complete_rejects_digit s y x c d :
  wf s → cells_in 0 9 (board s) → complete (board s) →
  int c = Ok d → 1 <= d <= 9 →
  try_place s y x c = Ok s.
Proof.
  intros Hwf Hc (_ & Hrows & _) Hint Hd.
  destruct (is_on_grid s y x) eqn:Hg;
    [| unfold try_place; by rewrite Hg].
  destruct (to_index_bounds s y x Hg) as [Hi Hj].
  rewrite (try_place_wf s y x c Hwf Hg), Hint. cbn [mbind result_bind].
  destruct (_ =? 0); [| done].
  rewrite bool_decide_eq_true_2; [done |]. left.
  unfold rows_valid in Hrows. rewrite Forall_forall in Hrows.
  assert (Hp : row_values (board s) (to_index y) ≡ₚ seqZ 1 9).
  { apply Hrows, elem_of_range. lia. }
  assert (Hin : d ∈ row_values (board s) (to_index y)).
  { rewrite Hp. apply elem_of_seqZ. lia. }
  apply list_elem_of_fmap in Hin as (j & -> & Hjr).
  apply Exists_exists. exists j. split; [done |].
  apply elem_of_range in Hjr. apply cell_wf; [apply Hwf | done | lia].
Qed.

(** X10: [play] looks for the end of the game only after a digit key.
    Without a digit key it never answers "win"; and on a solved board every
    key from 1 to 9 is answered by "win" at once, wherever the cursor is,
    and changes nothing. *)
Theorem win_needs_a_digit_key :
  (∀ s keys o s',
     Forall (fun c => digit_key c = false) keys →
     play_loop s keys = Ok (o, s') → o ≠ Some "win"%string)
  ∧ (∀ s c keys,
       wf s → cells_in 0 9 (board s) → complete (board s) →
       digit_key c = true → superscript_key c = false →
       play_loop s (c :: keys) = Ok (Some "win"%string, s)).
Proof.
  split; [intros s keys o s'; apply play_loop_no_digit |].
  intros s c keys Hwf Hc Hcomp Hd Hs.
  destruct (digit_key_int c Hd Hs) as (d & Hint & Hd19).
  rewrite (play_loop_digit s c keys Hd). destruct (cursor s) as [y x].
  rewrite (complete_rejects_digit s y x c d Hwf Hc Hcomp Hint Hd19).
  cbn [mbind result_bind].
  rewrite (is_completed_wf s true (proj2 Hwf) Hc).
  apply (complete_iff (board s) (proj2 Hwf) Hc) in Hcomp. rewrite Hcomp.
  reflexivity.
Qed.

Lemma win_needs_a_digit_key_witness :
  (∀ o s', play_loop (start 24 80 solved)
             ["KEY_DOWN"; "x"; "KEY_LEFT"]%string = Ok (o, s') →
           o ≠ Some "win"%string)
  ∧ play_loop (start 24 80 solved) ["3"; "KEY_UP"]%string
    = Ok (Some "win"%string, start 24 80 solved).
Proof.
  destruct win_needs_a_digit_key as [Hno Hwin]. split.
  - intros o s'. apply Hno. repeat constructor.
  - apply Hwin; try reflexivity.
    + split; (split; [reflexivity | repeat constructor]).
    + apply (proj1 (bool_decide_eq_true (cells_in 0 9 solved))).
      vm_compute. reflexivity.
    + apply (complete_iff solved).
      * split; [reflexivity | repeat constructor].
      * apply (proj1 (bool_decide_eq_true (cells_in 0 9 solved))).
        vm_compute. reflexivity.
      * vm_compute. reflexivity.
Defined.

(** ** Arrow keys *)

Lemma try_move_key s d y x :
  try_move s y x (key d) =
  if is_on_grid s y x then move s y x
  else let '(y', x') := shift d y x in
       if is_on_grid s y' x' then move s y' x' else s.
Proof.
  unfold try_move. destruct (is_on_grid s y x); [done |].
  destruct d; simpl;
    repeat match goal with
           | |- context [is_on_grid s ?a ?b] => destruct (is_on_grid s a b)
           end; reflexivity.
Qed.

Lemma play_loop_arrow s d keys :
  play_loop s (key d :: keys) =
  let '(y, x) := cursor s in
  let '(y', x') := shift d y x in
  play_loop (try_move s y' x' (key d)) keys.
Proof. destruct d; cbn [play_loop]; destruct (cursor s); reflexivity. Qed.

Lemma is_on_grid_move s y0 x0 y x :
  is_on_grid (move s y0 x0) y x = is_on_grid s y x.
Proof. by apply is_on_grid_ext. Qed.

Lemma move_back s y x y' x' : cursor s = (y, x) → move (move s y' x') y x = s.
Proof. destruct s as [h w ib b c]. simpl. by intros ->. Qed.

Lemma shift_opposite d y x y' x' :
  shift d y x = (y', x') → shift (opposite d) y' x' = (y, x).
Proof. destruct d; cbn; intros [= <- <-]; f_equal; lia. Qed.

(** X11: an arrow key that has moved the cursor is undone by the opposite
    arrow key, also when the cursor has jumped over a separator line. *)
Theorem opposite_arrow_undoes s d y x s1 :
  cursor s = (y, x) → is_on_grid s y x = true →
  play_loop s [key d] = Ok (None, s1) → s1 ≠ s →
  play_loop s1 [key (opposite d)] = Ok (None, s).
Proof.
  intros Hcur Hg H Hne. rewrite play_loop_arrow, Hcur in H.
  destruct (shift d y x) as [y1 x1] eqn:Hs. cbn [play_loop] in H.
  injection H as <-. rewrite try_move_key in Hne |- *.
  destruct (is_on_grid s y1 x1) eqn:Hg1.
  - rewrite play_loop_arrow. cbn [cursor move].
    rewrite (shift_opposite d y x y1 x1 Hs).
    rewrite try_move_key, is_on_grid_move, Hg. cbn [play_loop].
    by rewrite move_back.
  - destruct (shift d y1 x1) as [y2 x2] eqn:Hs2.
    destruct (is_on_grid s y2 x2) eqn:Hg2; [| done].
    rewrite play_loop_arrow. cbn [cursor move].
    rewrite (shift_opposite d y1 x1 y2 x2 Hs2).
    rewrite try_move_key, is_on_grid_move, Hg1.
    rewrite (shift_opposite d y x y1 x1 Hs).
    rewrite is_on_grid_move, Hg. cbn [play_loop]. by rewrite move_back.
Qed.

Lemma opposite_arrow_undoes_witness :
  play_loop (move game0 1 5) ["KEY_LEFT"]%string = Ok (None, move game0 1 3).
Proof.
  apply (opposite_arrow_undoes (move game0 1 3) Right 1 3 (move game0 1 5));
    try reflexivity.
  discriminate.
Defined.

Lemma is_on_grid_big s y x :
  11 <= height s → 13 <= width s → is_on_grid s y x = playableb y x.
Proof.
  intros Hh Hw. apply eq_true_iff_eq. rewrite is_on_grid_true.
  unfold playableb, playable.
  rewrite !andb_true_iff, !negb_true_iff, !Z.leb_le, !Z.eqb_neq.
  split; [tauto |]. intros (((((Hy0 & Hy) & Hx0) & Hx) & Hym) & Hxm).
  assert (y ≠ 12) by (intros ->; by apply Hym).
  assert (x ≠ 12) by (intros ->; by apply Hxm).
  repeat split; (done || lia).
Qed.

Lemma play_loop_arrow_cell s d y x :
  11 <= height s → 13 <= width s →
  cursor s = (y, x) → is_on_grid s y x = true →
  play_loop s [key d] =
  Ok (None,
      match neighbour d (to_index y) (to_index x) with
      | Some (i, j) => move s (ij_to_yx i) (ij_to_yx j)
      | None => s
      end).
Proof.
  intros Hh Hw Hcur Hg. rewrite play_loop_arrow, Hcur.
  destruct (shift d y x) as [y1 x1] eqn:Hs. cbn [play_loop].
  rewrite try_move_key. destruct (shift d y1 x1) as [y2 x2] eqn:Hs2.
  rewrite !(is_on_grid_big s _ _ Hh Hw).
  apply is_on_grid_playable in Hg as (Hy & Hx & Hym & Hxm).
  pose proof (playable_cases y Hy Hym) as Hcy.
  pose proof (playable_cases x Hx Hxm) as Hcx.
  clear Hy Hx Hym Hxm Hcur Hh Hw.
  repeat (apply elem_of_cons in Hcy as [-> | Hcy]);
    [.. | by apply elem_of_nil in Hcy];
    repeat (apply elem_of_cons in Hcx as [-> | Hcx]);
    try (by apply elem_of_nil in Hcx);
    destruct d; cbn in Hs, Hs2; injection Hs as <- <-;
    injection Hs2 as <- <-; reflexivity.
Qed.

(** X12: on a terminal of at least 12 lines and 13 columns, where every
    playable position lies inside the window, an arrow key puts the cursor,
    from the screen position of the cell it is on, on the screen position of
    the next cell of the board in that direction, over a separator line if
    there is one; it leaves the cursor where it is when the board has no
    cell there; and it changes nothing but the cursor. *)
Theorem arrow_moves_one_cell s d y x :
  12 <= height s → 13 <= width s →
  cursor s = (y, x) → is_on_grid s y x = true →
  ∃ s',
    play_loop s [key d] = Ok (None, s')
    ∧ same_game s s'
    ∧ cursor s' =
      match neighbour d (to_index y) (to_index x) with
      | Some (i, j) => (ij_to_yx i, ij_to_yx j)
      | None => (y, x)
      end.
Proof.
  intros Hh Hw Hcur Hg.
  rewrite (play_loop_arrow_cell s d y x) by (done || lia).
  eexists. split; [reflexivity |].
  destruct (neighbour d (to_index y) (to_index x)) as [[i j] |].
  - split; [by unfold same_game | done].
  - split; [by unfold same_game | done].
Qed.

Lemma arrow_moves_one_cell_witness :
  ∃ s',
    play_loop (move game0 3 7) ["KEY_DOWN"]%string = Ok (None, s')
    ∧ same_game (move game0 3 7) s'
    ∧ cursor s' = (5, 7).
Proof.
  apply (arrow_moves_one_cell (move game0 3 7) Down 3 7); try reflexivity;
    vm_compute; discriminate.
Defined.

(** ** Placing and deleting, one after the other *)

Lemma set_cell_set_cell b i j v v' :
  wf_board b → 0 <= i <= 8 → 0 <= j <= 8 →
  set_cell (set_cell b i j v) i j v' = set_cell b i j v'.
Proof.
  intros Hwf Hi Hj. destruct (wf_board_row b i Hwf Hi) as (row & Er & Hl).
  apply lookup_lt_Some in Er as Hlt.
  unfold set_cell. rewrite Er, list_lookup_insert_eq by done.
  by rewrite !list_insert_insert_eq.
Qed.

Lemma wf_set_cell b i j v : wf_board b → wf_board (set_cell b i j v).
Proof.
  intros Hwf. unfold set_cell.
  destruct (b !! Z.to_nat i) eqn:Er; [| done]. by apply wf_board_insert.
Qed.

Lemma try_place_wf_cases s y x num s' :
  wf s → try_place s y x num = Ok s' →
  s' = s
  ∨ (is_on_grid s y x = true
     ∧ (at_ (initial_board s) (to_index y) (to_index x) =? 0) = true
     ∧ ∃ d, int num = Ok d
            ∧ s' = mkSudoku (height s) (width s) (initial_board s)
                     (set_cell (board s) (to_index y) (to_index x) d) (y, x)).
Proof.
  intros Hwf H. destruct (is_on_grid s y x) eqn:Hg.
  - rewrite (try_place_wf s y x num Hwf Hg) in H.
    destruct (_ =? 0) eqn:Hb; [| left; congruence].
    destruct (int num) as [d |]; cbn [mbind result_bind] in H;
      [| discriminate].
    destruct (bool_decide (conflict _ _ _ _)); [left; congruence |].
    injection H as <-. right. split; [done |]. split; [done |]. by exists d.
  - unfold try_place in H. rewrite Hg in H. left. congruence.
Qed.

(** X13: on a playable cell that is blank, [try_del] after [try_place]
    gives back the board as it was, whether the digit was accepted or
    not. *)
Theorem delete_undoes_place s y x num s1 :
  wf s → is_on_grid s y x = true →
  cell (board s) (to_index y) (to_index x) = Some 0 →
  try_place s y x num = Ok s1 →
  ∃ s2, try_del s1 y x = Ok s2 ∧ board s2 = board s
        ∧ initial_board s2 = initial_board s.
Proof.
  intros Hwf Hg Hblank Hp. destruct (to_index_bounds s y x Hg) as [Hi Hj].
  apply (try_place_wf_cases s y x num s1 Hwf) in Hp
    as [-> | (_ & Hb & d & _ & ->)].
  - rewrite (try_del_wf s y x Hwf Hg). destruct (_ =? 0); [| by eexists].
    eexists. split; [done |]. cbn [board initial_board].
    split; [by apply set_cell_same | done].
  - set (s1 := mkSudoku _ _ _ _ _).
    assert (Hwf1 : wf s1).
    { split; [apply Hwf | by apply wf_set_cell, Hwf]. }
    assert (Hg1 : is_on_grid s1 y x = true) by (by rewrite <- Hg).
    rewrite (try_del_wf s1 y x Hwf1 Hg1). cbn [initial_board s1].
    rewrite Hb. eexists. split; [done |]. cbn [board initial_board s1].
    split; [| done].
    rewrite set_cell_set_cell by (apply Hwf || done).
    by apply set_cell_same.
Qed.

Lemma delete_undoes_place_witness :
  ∃ s2, try_del game1 1 3 = Ok s2 ∧ board s2 = board game0
        ∧ initial_board s2 = initial_board game0.
Proof.
  apply (delete_undoes_place game0 1 3 "4" game1); try reflexivity.
  split; (split; [reflexivity | repeat constructor]).
Defined.

(** X14: a second call with the same arguments changes nothing: after
    [try_place] has returned, the same [try_place] returns the state it is
    given, and so does [try_del] after [try_del]. *)
Theorem place_and_delete_are_idempotent s y x num s1 :
  wf s →
  (try_place s y x num = Ok s1 → try_place s1 y x num = Ok s1)
  ∧ (try_del s y x = Ok s1 → try_del s1 y x = Ok s1).
Proof.
  intros Hwf. split; intros Hp.
  - apply (try_place_wf_cases s y x num s1 Hwf) in Hp as Hcases.
    destruct Hcases as [-> | (Hg & Hb & d & Hint & ->)]; [done |].
    destruct (to_index_bounds s y x Hg) as [Hi Hj].
    set (s1 := mkSudoku _ _ _ _ _).
    assert (Hwf1 : wf s1).
    { split; [apply Hwf | by apply wf_set_cell, Hwf]. }
    assert (Hg1 : is_on_grid s1 y x = true) by (by rewrite <- Hg).
    rewrite (try_place_wf s1 y x num Hwf1 Hg1). cbn [initial_board s1].
    rewrite Hb, Hint. cbn [mbind result_bind].
    rewrite bool_decide_eq_true_2; [done |]. left.
    apply Exists_exists. exists (to_index x).
    split; [apply elem_of_range; lia |]. cbn [board s1].
    rewrite cell_set_cell by (apply Hwf || lia). by rewrite decide_True.
  - apply (try_del_wf_inv s y x s1 Hwf) in Hp as Hcases.
    destruct Hcases as [-> | (Hg & ->)]; [done |].
    destruct (to_index_bounds s y x Hg) as [Hi Hj].
    rewrite (try_del_wf s y x Hwf Hg) in Hp.
    destruct (_ =? 0) eqn:Hb; [clear Hp |].
    2:{ injection Hp as Hp. rewrite <- Hp. rewrite (try_del_wf s y x Hwf Hg).
        by rewrite Hb. }
    set (s1 := mkSudoku _ _ _ _ _).
    assert (Hwf1 : wf s1).
    { split; [apply Hwf | by apply wf_set_cell, Hwf]. }
    assert (Hg1 : is_on_grid s1 y x = true) by (by rewrite <- Hg).
    rewrite (try_del_wf s1 y x Hwf1 Hg1). cbn [initial_board s1].
    rewrite Hb. cbn [board s1 height width].
    by rewrite set_cell_set_cell by (apply Hwf || done).
Qed.

Lemma place_and_delete_are_idempotent_witness :
  try_place game1 1 3 "4" = Ok game1.
Proof.
  apply (place_and_delete_are_idempotent game0 1 3 "4" game1).
  - split; (split; [reflexivity | repeat constructor]).
  - vm_compute. reflexivity.
Defined.

(** ** [init_board] *)

Lemma for_acc_cases {St} (I : St → Prop) (e : exn) (xs : list Z)
  (body : Z → St → result St) (st : St) :
  I st →
  (∀ x st, x ∈ xs → I st →
     body x st = Raise e ∨ ∃ st', body x st = Ok st' ∧ I st') →
  for_acc xs body st = Raise e ∨ ∃ st', for_acc xs body st = Ok st' ∧ I st'.
Proof.
  revert st. induction xs as [| x xs IH]; intros st HI H; cbn [for_acc].
  { right. by exists st. }
  destruct (H x st) as [-> | (st' & -> & HI')];
    [apply list_elem_of_here | done | by left |].
  cbn [mbind result_bind]. apply IH; [done |].
  intros x' st0 Hx'. apply H. by apply list_elem_of_further.
Qed.

Lemma for_acc_raises {St} (I : St → Prop) (e : exn) (xs : list Z)
  (body : Z → St → result St) (st : St) :
  I st →
  (∀ x st, x ∈ xs → I st →
     body x st = Raise e ∨ ∃ st', body x st = Ok st' ∧ I st') →
  (∃ x, x ∈ xs ∧ ∀ st, I st → body x st = Raise e) →
  for_acc xs body st = Raise e.
Proof.
  revert st. induction xs as [| x xs IH]; intros st HI H (x0 & Hx0 & Hr).
  { by apply elem_of_nil in Hx0. }
  cbn [for_acc]. apply elem_of_cons in Hx0 as [<- | Hx0].
  { by rewrite Hr. }
  destruct (H x st) as [-> | (st' & -> & HI')];
    [apply list_elem_of_here | done | done |].
  cbn [mbind result_bind]. apply IH; [done | | by exists x0].
  intros x' st0 Hx'. apply H. by apply list_elem_of_further.
Qed.

Lemma for_acc_screen (I : Sudoku → Prop) (p : Z → screen → screen)
  (xs : list Z) (body : Z → Sudoku * screen → result (Sudoku * screen))
  (s0 : Sudoku) (scr0 : screen) :
  I s0 →
  (∀ x s' scr', x ∈ xs → I s' →
     ∃ s'', body x (s', scr') = Ok (s'', p x scr') ∧ I s'') →
  ∃ s'', for_acc xs body (s0, scr0)
         = Ok (s'', foldl (fun scr x => p x scr) scr0 xs) ∧ I s''.
Proof.
  revert s0 scr0. induction xs as [| x xs IH]; intros s0 scr0 HI H;
    cbn [for_acc foldl].
  { by exists s0. }
  destruct (H x s0 scr0) as (s1 & -> & HI1); [apply list_elem_of_here | done |].
  cbn [mbind result_bind]. apply IH; [done |].
  intros x' s' scr' Hx'. apply H. by apply list_elem_of_further.
Qed.

Lemma same_game_addch s s' y x ch :
  same_game s s' → same_game s (addch s' y x ch).
Proof. by intros (? & ? & ? & ?). Qed.

Lemma init_board_loops (s : Sudoku) (scr : screen) :
  init_board s scr =
  for_acc (range 1 12)
    (fun x st => for_acc (range 1 12) (init_board_cell x) st) (s, scr).
Proof. reflexivity. Qed.

(** One turn of the inner loop. *)
Lemma init_board_step (s s' : Sudoku) (scr' : screen) (y x : Z) :
  wf s → same_game s s' →
  (x mod 4 = 0 ∨ y mod 4 = 0 ∨ is_on_grid s y x = true) →
  ∃ s'',
    init_board_cell x y (s', scr')
    = Ok (s'', paint s scr' y x)
    ∧ same_game s s''.
Proof.
  intros [Hwi Hwb] Hsame Hpos. pose proof Hsame as (Hh & Hw & Hib & Hb).
  unfold init_board_cell, paint, glyph_at.
  destruct (yx_to_ij s' y x) as [i j] eqn:Hij.
  destruct (Z.eqb_spec (x mod 4) 0) as [Hx | Hx].
  { eexists. split; [done |]. by apply same_game_addch. }
  destruct (Z.eqb_spec (y mod 4) 0) as [Hy | Hy].
  { eexists. split; [done |]. by apply same_game_addch. }
  destruct Hpos as [? | [? | Hg]]; [done | done |].
  rewrite <- (is_on_grid_ext s s' y x Hh Hw) in Hg.
  rewrite (yx_to_ij_on_grid s' y x Hg) in Hij. injection Hij as <- <-.
  fold (to_index y) (to_index x).
  destruct (to_index_bounds s' y x Hg) as [Hi Hj].
  rewrite Hib, Hb. cbn [subscript].
  rewrite (index_cell_bind _ _ _ _ Hwi Hi Hj).
  destruct (negb (at_ (initial_board s) (to_index y) (to_index x) =? 0)).
  { eexists. split; [done |]. by apply same_game_addch. }
  rewrite (index_cell_bind _ _ _ _ Hwb Hi Hj).
  destruct (negb (at_ (board s) (to_index y) (to_index x) =? 0)).
  { eexists. split; [done |]. by apply same_game_addch. }
  by eexists.
Qed.

(** A turn of the inner loop at a position that is neither on a separator
    line nor playable. *)
Lemma init_board_step_raises (s s' : Sudoku) (scr' : screen) (y x : Z) :
  same_game s s' →
  x mod 4 ≠ 0 → y mod 4 ≠ 0 → is_on_grid s y x = false →
  init_board_cell x y (s', scr')
  = Raise TypeError.
Proof.
  intros (Hh & Hw & _) Hx Hy Hg. unfold init_board_cell.
  rewrite <- (is_on_grid_ext s s' y x Hh Hw) in Hg.
  rewrite (yx_to_ij_off_grid s' y x Hg).
  destruct (Z.eqb_spec (x mod 4) 0); [done |].
  destruct (Z.eqb_spec (y mod 4) 0); [done |]. reflexivity.
Qed.

Lemma is_on_grid_small (s : Sudoku) :
  height s < 11 ∨ width s < 13 → is_on_grid s 11 11 = false.
Proof.
  intros Hs. apply not_true_is_false. intros H.
  apply is_on_grid_true in H. lia.
Qed.

Lemma init_board_step_cases (s s' : Sudoku) (scr' : screen) (y x : Z) :
  wf s → same_game s s' →
  init_board_cell x y (s', scr')
  = Raise TypeError
  ∨ ∃ st', init_board_cell x y (s', scr')
           = Ok st' ∧ same_game s st'.1.
Proof.
  intros Hwf Hsame.
  destruct (decide (x mod 4 = 0)) as [Hx | Hx];
    [| destruct (decide (y mod 4 = 0)) as [Hy | Hy];
       [| destruct (is_on_grid s y x) eqn:Hg]].
  - destruct (init_board_step s s' scr' y x Hwf Hsame) as (s'' & -> & ?);
      [by left | right; by eexists].
  - destruct (init_board_step s s' scr' y x Hwf Hsame) as (s'' & -> & ?);
      [by right; left | right; by eexists].
  - destruct (init_board_step s s' scr' y x Hwf Hsame) as (s'' & -> & ?);
      [by right; right | right; by eexists].
  - left. by apply (init_board_step_raises s).
Qed.

(** X15: in a terminal of fewer than 11 lines or fewer than 13 columns
    [init_board] does not finish: it reaches a cell that [is_on_grid]
    refuses, for which [yx_to_ij] gives [None], and the subscript raises
    [TypeError]. *)
Theorem init_board_needs_room (s : Sudoku) (scr : screen) :
  wf s → height s < 11 ∨ width s < 13 →
  init_board s scr = Raise TypeError.
Proof.
  intros Hwf Hsmall. pose proof (is_on_grid_small s Hsmall) as Hg.
  assert (Hin : (11 : Z) ∈ range 1 12) by (apply elem_of_range; lia).
  assert (Hinner : ∀ x (st : Sudoku * screen),
            same_game s st.1 →
            for_acc (range 1 12) (init_board_cell x) st = Raise TypeError
            ∨ ∃ st', for_acc (range 1 12) (init_board_cell x) st = Ok st'
                     ∧ same_game s st'.1).
  { intros x st Hst.
    apply (for_acc_cases (fun st : Sudoku * screen => same_game s st.1));
      [done |].
    intros y [s' scr'] _ Hs'. by apply init_board_step_cases. }
  rewrite init_board_loops.
  apply (for_acc_raises (fun st : Sudoku * screen => same_game s st.1));
    [done | by intros x st _; apply Hinner |].
  exists 11. split; [done |]. intros st Hst.
  apply (for_acc_raises (fun st : Sudoku * screen => same_game s st.1));
    [done | | ].
  - intros y [s' scr'] _ Hs'. by apply init_board_step_cases.
  - exists 11. split; [done |]. intros [s' scr'] Hs'.
    by apply (init_board_step_raises s).
Qed.

Lemma init_board_needs_room_witness :
  init_board (start 10 80 puzzle) ∅ = Raise TypeError.
Proof.
  apply (init_board_needs_room (start 10 80 puzzle)).
  - split; (split; [reflexivity | repeat constructor]).
  - left. reflexivity.
Defined.

Lemma paint_lookup (s : Sudoku) (scr : screen) (y x : Z) (k : Z * Z) :
  paint s scr y x !! k = if decide (k = (y, x)) then painted s scr k
                         else scr !! k.
Proof.
  unfold paint, painted. destruct (decide (k = (y, x))) as [-> | Hne].
  - cbn [fst snd]. destruct (glyph_at s y x); [| done].
    by rewrite lookup_insert_eq.
  - destruct (glyph_at s y x); [| done]. by rewrite lookup_insert_ne.
Qed.

Lemma painted_paint (s : Sudoku) (scr : screen) (y x : Z) (k : Z * Z) :
  painted s (paint s scr y x) k = painted s scr k.
Proof.
  unfold painted at 1. rewrite paint_lookup. unfold painted.
  destruct (glyph_at s k.1 k.2); [done |]. by destruct (decide _).
Qed.

Lemma paint_column_lookup (s : Sudoku) (ys : list Z) (x : Z) (scr : screen)
  (k : Z * Z) :
  foldl (fun scr y => paint s scr y x) scr ys !! k
  = if bool_decide (k.2 = x ∧ k.1 ∈ ys) then painted s scr k else scr !! k.
Proof.
  revert scr. induction ys as [| y ys IH]; intros scr; cbn [foldl].
  { rewrite bool_decide_eq_false_2; [done |]. intros [_ H].
    by apply elem_of_nil in H. }
  rewrite IH, painted_paint, paint_lookup. destruct k as [ky kx].
  cbn [fst snd].
  destruct (decide ((ky, kx) = (y, x))) as [[= -> ->] | Hne].
  - rewrite (bool_decide_eq_true_2 (x = x ∧ y ∈ y :: ys));
      [| split; [done | apply list_elem_of_here]].
    by destruct (bool_decide _).
  - destruct (bool_decide (kx = x ∧ ky ∈ ys)) eqn:Hb.
    + apply bool_decide_eq_true in Hb as [-> Hin].
      rewrite bool_decide_eq_true_2; [done |].
      split; [done | by apply list_elem_of_further].
    + apply bool_decide_eq_false in Hb.
      rewrite bool_decide_eq_false_2; [done |].
      intros [-> Hin]. apply elem_of_cons in Hin as [-> | Hin]; [done |].
      by apply Hb.
Qed.

Lemma painted_column (s : Sudoku) (ys : list Z) (x : Z) (scr : screen)
  (k : Z * Z) :
  painted s (foldl (fun scr y => paint s scr y x) scr ys) k = painted s scr k.
Proof.
  unfold painted at 1. rewrite paint_column_lookup. unfold painted.
  destruct (glyph_at s k.1 k.2); [done |]. by destruct (bool_decide _).
Qed.

Lemma paint_grid_lookup (s : Sudoku) (xs ys : list Z) (scr : screen)
  (k : Z * Z) :
  foldl (fun scr x => foldl (fun scr y => paint s scr y x) scr ys) scr xs !! k
  = if bool_decide (k.2 ∈ xs ∧ k.1 ∈ ys) then painted s scr k else scr !! k.
Proof.
  revert scr. induction xs as [| x xs IH]; intros scr; cbn [foldl].
  { rewrite bool_decide_eq_false_2; [done |]. intros [H _].
    by apply elem_of_nil in H. }
  rewrite IH, painted_column, paint_column_lookup.
  destruct (bool_decide (k.2 = x ∧ k.1 ∈ ys)) eqn:Hb1.
  - apply bool_decide_eq_true in Hb1 as [Hx Hy].
    rewrite (bool_decide_eq_true_2 (k.2 ∈ x :: xs ∧ k.1 ∈ ys));
      [| split; [rewrite Hx; apply list_elem_of_here | done]].
    by destruct (bool_decide _).
  - apply bool_decide_eq_false in Hb1.
    destruct (bool_decide (k.2 ∈ xs ∧ k.1 ∈ ys)) eqn:Hb2.
    + apply bool_decide_eq_true in Hb2 as [Hx Hy].
      rewrite bool_decide_eq_true_2; [done |].
      split; [by apply list_elem_of_further | done].
    + apply bool_decide_eq_false in Hb2.
      rewrite bool_decide_eq_false_2; [done |].
      intros [Hx Hy]. apply elem_of_cons in Hx as [Hx | Hx]; tauto.
Qed.

Lemma init_board_paints (s : Sudoku) (scr : screen) :
  wf s → 11 <= height s → 13 <= width s →
  ∃ s', init_board s scr
        = Ok (s', foldl (fun scr x =>
                    foldl (fun scr y => paint s scr y x) scr (range 1 12))
                    scr (range 1 12))
        ∧ same_game s s'.
Proof.
  intros Hwf Hh Hw. rewrite init_board_loops.
  apply (for_acc_screen (same_game s)
           (fun x scr => foldl (fun scr y => paint s scr y x) scr
                           (range 1 12))); [done |].
  intros x s1 scr1 Hx Hs1. apply elem_of_range in Hx.
  apply (for_acc_screen (same_game s) (fun y scr => paint s scr y x));
    [done |].
  intros y s2 scr2 Hy Hs2. apply elem_of_range in Hy.
  apply init_board_step; [done | done |].
  destruct (decide (x mod 4 = 0)) as [| Hxm]; [by left |].
  destruct (decide (y mod 4 = 0)) as [| Hym]; [by right; left |].
  right. right. apply is_on_grid_true. unfold playable. repeat split; lia.
Qed.

Lemma init_board_screen (s : Sudoku) (scr : screen) :
  wf s → 11 <= height s → 13 <= width s →
  ∃ s' scr',
    init_board s scr = Ok (s', scr')
    ∧ board s' = board s ∧ initial_board s' = initial_board s
    ∧ (∀ i j, 0 <= i <= 8 → 0 <= j <= 8 →
         scr' !! (ij_to_yx i, ij_to_yx j) =
         if at_ (initial_board s) i j =? 0 then
           if at_ (board s) i j =? 0 then scr !! (ij_to_yx i, ij_to_yx j)
           else Some (str (at_ (board s) i j), false)
         else Some (str (at_ (initial_board s) i j), true))
    ∧ (∀ y x, 1 <= y <= 11 → 1 <= x <= 11 → x mod 4 = 0 →
         scr' !! (y, x) = Some ("|"%string, false))
    ∧ (∀ y x, 1 <= y <= 11 → 1 <= x <= 11 → x mod 4 ≠ 0 → y mod 4 = 0 →
         scr' !! (y, x) = Some ("-"%string, false))
    ∧ (∀ y x, ¬ (1 <= y <= 11 ∧ 1 <= x <= 11) →
         scr' !! (y, x) = scr !! (y, x)).
Proof.
  intros Hwf Hh Hw.
  destruct (init_board_paints s scr Hwf Hh Hw) as (s' & Hinit & Hsame).
  exists s'. eexists. split; [exact Hinit |].
  destruct Hsame as (_ & _ & Hib & Hb). split; [done |]. split; [done |].
  assert (Hin : ∀ y x, 1 <= y <= 11 → 1 <= x <= 11 →
            bool_decide ((y, x).2 ∈ range 1 12 ∧ (y, x).1 ∈ range 1 12)
            = true).
  { intros y x Hy Hx. apply bool_decide_eq_true. cbn [fst snd].
    rewrite !elem_of_range. lia. }
  split; [| split; [| split]].
  - intros i j Hi Hj. rewrite paint_grid_lookup.
    destruct (to_screen_range i Hi) as (Hy & Hym & Ei & Hy11).
    destruct (to_screen_range j Hj) as (Hx & Hxm & Ej & Hx11).
    assert (ij_to_yx i ≠ 0) by (intros E; by rewrite E in Hym).
    assert (ij_to_yx j ≠ 0) by (intros E; by rewrite E in Hxm).
    rewrite Hin by lia. unfold painted, glyph_at. cbn [fst snd].
    apply Z.eqb_neq in Hym, Hxm. rewrite Hym, Hxm.
    unfold to_index. rewrite Ei, Ej.
    destruct (at_ (initial_board s) i j =? 0); cbn [negb]; [| done].
    by destruct (at_ (board s) i j =? 0).
  - intros y x Hy Hx Hxm. rewrite paint_grid_lookup, Hin by done.
    unfold painted, glyph_at. cbn [fst snd]. by rewrite Hxm.
  - intros y x Hy Hx Hxm Hym. rewrite paint_grid_lookup, Hin by done.
    unfold painted, glyph_at. cbn [fst snd]. apply Z.eqb_neq in Hxm.
    by rewrite Hxm, Hym.
  - intros y x Hout. rewrite paint_grid_lookup.
    rewrite bool_decide_eq_false_2; [done |]. cbn [fst snd].
    rewrite !elem_of_range. lia.
Qed.

Lemma str_digit v : 0 <= v <= 9 → String.length (str v) = 1%nat.
Proof.
  intros Hv.
  assert (v = 0 ∨ v = 1 ∨ v = 2 ∨ v = 3 ∨ v = 4 ∨ v = 5 ∨ v = 6 ∨ v = 7
          ∨ v = 8 ∨ v = 9) as Hc by lia.
  repeat (destruct Hc as [-> | Hc]; [reflexivity |]). by subst v.
Qed.

Lemma glyph_at_one_char (s : Sudoku) (y x : Z) (g : string * bool) :
  wf s → cells_in 0 9 (initial_board s) → cells_in 0 9 (board s) →
  1 <= y <= 11 → 1 <= x <= 11 →
  glyph_at s y x = Some g → String.length g.1 = 1%nat.
Proof.
  intros [Hwi Hwb] Hci Hcb Hy Hx. unfold glyph_at.
  destruct (Z.eqb_spec (x mod 4) 0) as [| Hxm]; [by intros [= <-] |].
  destruct (Z.eqb_spec (y mod 4) 0) as [| Hym]; [by intros [= <-] |].
  destruct (to_index_range y) as [Hi _]; [lia | done |].
  destruct (to_index_range x) as [Hj _]; [lia | done |].
  fold (to_index y) in Hi. fold (to_index x) in Hj.
  destruct (negb (_ =? 0)).
  { intros [= <-]. apply str_digit. by apply cells_in_at. }
  destruct (negb (_ =? 0)); [| done].
  intros [= <-]. apply str_digit. by apply cells_in_at.
Qed.

(** X16: on a game of nine rows of nine cells with values in [0,9], in a
    terminal of at least 12 lines and 13 columns, where lines and columns 1
    to 11 lie inside the window, [init_board] finishes, leaves both boards
    as they are and draws, for every cell, at the screen position of the
    cell: the digit of the puzzle in colour pair 1 if the cell is given,
    else the digit of the player without colour, else nothing.  It draws
    "|" on columns 4 and 8 and "-" on the rest of lines 4 and 8, touches no
    position outside lines and columns 1 to 11, and every string it draws
    is one character. *)
Theorem init_board_shows_the_boards (s : Sudoku) (scr : screen) :
  wf s → cells_in 0 9 (initial_board s) → cells_in 0 9 (board s) →
  12 <= height s → 13 <= width s →
  ∃ s' scr',
    init_board s scr = Ok (s', scr')
    ∧ board s' = board s ∧ initial_board s' = initial_board s
    ∧ (∀ i j, 0 <= i <= 8 → 0 <= j <= 8 →
         scr' !! (ij_to_yx i, ij_to_yx j) =
         if at_ (initial_board s) i j =? 0 then
           if at_ (board s) i j =? 0 then scr !! (ij_to_yx i, ij_to_yx j)
           else Some (str (at_ (board s) i j), false)
         else Some (str (at_ (initial_board s) i j), true))
    ∧ (∀ y x, 1 <= y <= 11 → 1 <= x <= 11 → x mod 4 = 0 →
         scr' !! (y, x) = Some ("|"%string, false))
    ∧ (∀ y x, 1 <= y <= 11 → 1 <= x <= 11 → x mod 4 ≠ 0 → y mod 4 = 0 →
         scr' !! (y, x) = Some ("-"%string, false))
    ∧ (∀ y x, ¬ (1 <= y <= 11 ∧ 1 <= x <= 11) →
         scr' !! (y, x) = scr !! (y, x))
    ∧ (∀ k g, scr' !! k = Some g →
         scr !! k = Some g ∨ String.length g.1 = 1%nat).
Proof.
  intros Hwf Hci Hcb Hh Hw.
  assert (Hh11 : 11 <= height s) by lia.
  destruct (init_board_paints s scr Hwf Hh11 Hw) as (s' & Hinit & _).
  remember (foldl (fun scr x =>
              foldl (fun scr y => paint s scr y x) scr (range 1 12))
              scr (range 1 12)) as scr' eqn:Hscr.
  destruct (init_board_screen s scr Hwf Hh11 Hw)
    as (s2 & scr2 & Hinit2 & Hb & Hib & Hcell & Hbar & Hdash & Hout).
  rewrite Hinit in Hinit2.
  assert (Heq : s2 = s' ∧ scr2 = scr') by (split; congruence).
  destruct Heq as [-> ->].
  exists s', scr'. do 7 (split; [done |]).
  intros [y x] g Hk.
  destruct (decide (1 <= y <= 11 ∧ 1 <= x <= 11)) as [[Hy Hx] | Hno];
    [| left; by rewrite <- (Hout y x Hno)].
  rewrite Hscr, paint_grid_lookup in Hk.
  destruct (bool_decide _); [| by left]. unfold painted in Hk.
  cbn [fst snd] in Hk.
  destruct (glyph_at s y x) as [g' |] eqn:Hg; [| by left].
  injection Hk as ->. right.
  by apply (glyph_at_one_char s y x g).
Qed.

Lemma init_board_shows_the_boards_witness :
  ∃ s' scr',
    init_board game1 ∅ = Ok (s', scr')
    ∧ scr' !! (1, 1) = Some ("5"%string, true)
    ∧ scr' !! (1, 3) = Some ("4"%string, false)
    ∧ scr' !! (1, 4) = Some ("|"%string, false)
    ∧ scr' !! (2, 2) = None.
Proof.
  destruct (init_board_shows_the_boards game1 ∅)
    as (s' & scr' & Hinit & _ & _ & Hcell & Hbar & _);
    [split; (split; [reflexivity | repeat constructor])
    | apply (proj1 (bool_decide_eq_true (cells_in 0 9 puzzle)));
      vm_compute; reflexivity
    | apply (proj1 (bool_decide_eq_true (cells_in 0 9 (board game1))));
      vm_compute; reflexivity
    | vm_compute; discriminate | vm_compute; discriminate |].
  exists s', scr'. split; [exact Hinit |]. split; [| split; [| split]].
  - apply (Hcell 0 0); lia.
  - apply (Hcell 0 2); lia.
  - apply (Hbar 1 4); [lia | lia | reflexivity].
  - apply (Hcell 1 1); lia.
Defined.

(** ** A full board does not go unnoticed *)

Lemma play_loop_app keys1 keys2 s :
  play_loop s (keys1 ++ keys2) =
  r ← play_loop s keys1;
  match r with
  | (None, s1) => play_loop s1 keys2
  | (Some o, s1) => Ok (Some o, s1)
  end.
Proof.
  revert s. induction keys1 as [| c keys1 IH]; intros s.
  { cbn [app play_loop mbind result_bind]. done. }
  rewrite <- app_comm_cons. cbn [play_loop]. destruct (cursor s) as [y x].
  destruct (String.eqb c KEY_ESC); [done |].
  destruct (String.eqb c "KEY_UP"); [apply IH |].
  destruct (String.eqb c "KEY_DOWN"); [apply IH |].
  destruct (String.eqb c "KEY_LEFT"); [apply IH |].
  destruct (String.eqb c "KEY_RIGHT"); [apply IH |].
  destruct ((String.length c =? 1)%nat && isdigit c && negb (String.eqb c "0")).
  { destruct (try_place s y x c) as [s1 |]; cbn [mbind result_bind];
      [| done].
    destruct (is_completed s1 true) as [[] |]; cbn [mbind result_bind];
      [done | apply IH | done]. }
  destruct (String.eqb c "KEY_BACKSPACE" || String.eqb c KEY_BS
            || String.eqb c KEY_DEL); [| apply IH].
  destruct (try_del s y x) as [s1 |]; cbn [mbind result_bind];
    [apply IH | done].
Qed.

Lemma play_loop_consistent keys s o s' :
  wf s → cells_in 0 9 (board s) → consistent (board s) →
  play_loop s keys = Ok (o, s') →
  wf s' ∧ cells_in 0 9 (board s') ∧ consistent (board s').
Proof.
  intros Hwf Hc Hcons H.
  apply (play_loop_inv (fun s => wf s ∧ cells_in 0 9 (board s)
                                 ∧ consistent (board s))) in H
    as [H _]; [done | .. | done].
  - intros s0 y x dir (H1 & H2 & H3).
    destruct (perform_shape s0 (Move y x dir) _ eq_refl) as (_ & _ & Hw & Hv).
    split; [by auto |]. split; [by auto |].
    by apply (perform_consistent s0 (Move y x dir)).
  - intros s0 y x c s1 (H1 & H2 & H3) Hl _ _ Hp.
    destruct (perform_shape s0 (Place y x c) s1 Hp) as (_ & _ & Hw & Hv).
    split; [by auto |]. split; [by auto |].
    by apply (perform_consistent s0 (Place y x c)).
  - intros s0 y x s1 (H1 & H2 & H3) Hp.
    destruct (perform_shape s0 (Del y x) s1 Hp) as (_ & _ & Hw & Hv).
    split; [by auto |]. split; [by auto |].
    by apply (perform_consistent s0 (Del y x)).
Qed.

(** X17: in a game on a puzzle of nine rows of nine cells with values in
    [0,9] and no repeated digit, a full board does not go unnoticed: when
    [play] waits for a key right after a digit key, the board has a blank
    cell. *)
Theorem full_board_is_noticed h w puzzle keys c s' :
  wf_board puzzle → cells_in 0 9 puzzle → consistent puzzle →
  digit_key c = true →
  play (start h w puzzle) (keys ++ [c]) = Ok (None, s') →
  ¬ full (board s').
Proof.
  intros Hwf Hc Hcons Hd H Hfull. unfold play in H.
  change (move (start h w puzzle) 1 1) with (start h w puzzle) in H.
  rewrite play_loop_app in H.
  destruct (play_loop (start h w puzzle) keys) as [[[o |] s1] |] eqn:H1;
    cbn [mbind result_bind] in H; [discriminate | | discriminate].
  apply play_loop_consistent in H1 as (Hwf1 & Hc1 & Hcons1);
    [| by split | done | done].
  rewrite (play_loop_digit s1 c [] Hd) in H. destruct (cursor s1) as [y x].
  destruct (try_place s1 y x c) as [s2 |] eqn:Hp;
    cbn [mbind result_bind] in H; [| discriminate].
  assert (Hl : String.length c = 1%nat).
  { unfold digit_key in Hd. apply andb_true_iff in Hd as [Hd _].
    apply andb_true_iff in Hd as [Hd _]. by apply Nat.eqb_eq in Hd. }
  destruct (perform_shape s1 (Place y x c) s2 Hp) as (_ & _ & Hw & Hv).
  specialize (Hw Hwf1). specialize (Hv Hc1 Hl).
  pose proof (perform_consistent s1 (Place y x c) s2 Hwf1 Hcons1 Hp) as Hcons2.
  rewrite (is_completed_wf s2 true (proj2 Hw) Hv) in H.
  cbn [mbind result_bind] in H.
  destruct (fullb (board s2) && (linesb (board s2) && boxesb (board s2)))
    eqn:Hb; [discriminate |].
  cbn [play_loop] in H. injection H as <-.
  apply (consistent_full_complete (board s2) (proj2 Hw) Hv Hcons2) in Hfull.
  apply (complete_iff (board s2) (proj2 Hw) Hv) in Hfull. congruence.
Qed.

Lemma full_board_is_noticed_witness : ¬ full (board game1).
Proof.
  apply (full_board_is_noticed 24 80 puzzle
           ["KEY_RIGHT"; "KEY_RIGHT"]%string "4"%string game1).
  - split; [reflexivity | repeat constructor].
  - apply (proj1 (bool_decide_eq_true (cells_in 0 9 puzzle))).
    vm_compute. reflexivity.
  - apply (proj1 (bool_decide_eq_true (consistent puzzle))).
    vm_compute. reflexivity.
  - reflexivity.
  - vm_compute. reflexivity.
Defined.
